(** * Shared files and folders report: a resumable Drive traversal

    Shallow embedding of [list_shared_files_and_folders.js], a Google Apps
    Script that walks a Drive folder tree with continuation tokens, writes
    every shared file and folder to a spreadsheet, and persists its iterator
    stack in the user properties when the execution time limit is reached.

    The Apps Script services the script calls (DriveApp, Session,
    SpreadsheetApp, PropertiesService, Date) are external; they are modelled
    by the data the script reads from them.  Logging through [console] is not
    modelled. *)

From Stdlib Require Import ZArith String Ascii.
From stdpp Require Import gmap strings list fin_maps.

#[local] Set Warnings "-register-all".

(** ** The Drive service, as the script sees it *)

Module DriveApp.

(** [DriveApp.Access] *)
Inductive Access := ANYONE | ANYONE_WITH_LINK | DOMAIN | DOMAIN_WITH_LINK | PRIVATE.

Record User := { getEmail : string }.

(** What the script reads of a [File] or of a [Folder]. *)
Record Item := {
  getName : string;
  getSharingAccess : Access;
  getOwner : User;
  getViewers : list User;
  getEditors : list User;
}.

(** A [Folder] object.  [getFiles] and [getFolders] stand for
    [folder.getFiles().getContinuationToken()] and
    [folder.getFolders().getContinuationToken()], the only use the script
    makes of the two fresh iterators. *)
Record Folder := {
  item : Item;
  getFiles : string;
  getFolders : string;
}.

(** The service.  An iterator resumed from a token is observed through
    [hasNext()], [next()] and [getContinuationToken()] in this order, so
    [continueFileIterator tok] is [None] when [hasNext()] is false and
    [Some (file, tok')] when [next()] returns [file] and the iterator's
    token is [tok'] afterwards.  [getFoldersByName f name] is the first
    folder of [f.getFoldersByName(name)], if it has one. *)
Record Service := {
  getRootFolder : Folder;
  continueFileIterator : string -> option (Item * string);
  continueFolderIterator : string -> option (Folder * string);
  getFoldersByName : Folder -> string -> option Folder;
}.

End DriveApp.

Import DriveApp.

Global Instance Access_eq_dec : EqDecision Access.
Proof. solve_decision. Defined.

Global Instance User_eq_dec : EqDecision User.
Proof. solve_decision. Defined.

Global Instance Item_eq_dec : EqDecision Item.
Proof. solve_decision. Defined.

(** ** The report sheet *)

Inductive Cell := Text (s : string) | Number (n : Z).

Abbreviation Row := (list Cell).

(** A sheet is its rows, top down; a row is its cells, from column A. *)
Abbreviation Sheet := (list Row).

(** [sheet.appendRow(row)] *)
Definition appendRow (row : Row) (sheet : Sheet) : Sheet := sheet ++ [row].

(** ** Exceptions and results *)

Inductive Exn :=
  | TypeError        (* a property of [null] or [undefined] is read, or a
                        missing method is called *)
  | SyntaxError      (* [JSON.parse] rejects its argument *)
  | IteratorFailure. (* [throw "Should never get here. Iterator failure!"] *)

Inductive Res (A : Type) :=
  | Ok (a : A)
  | Throw (e : Exn)
  | OutOfFuel        (* the loop of [main] was cut by the fuel of the model *)
  | OutsideModel.    (* the stored value is JSON of a shape the script never
                        writes; JavaScript's dynamic typing is not followed *)
Arguments Ok {A} a.
Arguments Throw {A} e.
Arguments OutOfFuel {A}.
Arguments OutsideModel {A}.

(** ** The classification of an item *)

(** [getSharingAccess(item)], lines 327-357.  [effectiveUserMail] is
    [Session.getEffectiveUser().getEmail()]. *)
Definition getSharingAccess (effectiveUserMail : string) (item : Item) : string :=
  if bool_decide (DriveApp.getSharingAccess item = PRIVATE) then
    if negb (getEmail (getOwner item) =? effectiveUserMail)%string then "Shared"
    else if existsb (fun v => negb (getEmail v =? effectiveUserMail)%string) (getViewers item)
    then "Shared"
    else if existsb (fun e => negb (getEmail e =? effectiveUserMail)%string) (getEditors item)
    then "Shared"
    else "Private"
  else "Shared".

(** ** The iterator stack *)

(** One entry of [recursiveIterator], line 181:
    [{folderName: String, fileIteratorContinuationToken: String?,
      folderIteratorContinuationToken: String}].  [None] is [null]. *)
Record Iteration := {
  folderName : string;
  fileIteratorContinuationToken : option string;
  folderIteratorContinuationToken : option string;
}.

Global Instance Iteration_eq_dec : EqDecision Iteration.
Proof. solve_decision. Defined.

(** [makeIterationFromFolder(folder)], lines 261-267 *)
Definition makeIterationFromFolder (folder : Folder) : Iteration :=
  {| folderName := getName (item folder);
     fileIteratorContinuationToken := Some (getFiles folder);
     folderIteratorContinuationToken := Some (getFolders folder) |}.

(** [recursiveIterator.map(function(iteration) { return iteration.folderName; }).join("/")] *)
Definition folderPath (recursiveIterator : list Iteration) : string :=
  String.concat "/" (map folderName recursiveIterator).

(** Assignment to [recursiveIterator[recursiveIterator.length-1]]. *)
Definition setLast (x : Iteration) (recursiveIterator : list Iteration) : list Iteration :=
  <[length recursiveIterator - 1 := x]> recursiveIterator.

(** [recursiveIterator.pop()] *)
Definition pop (recursiveIterator : list Iteration) : list Iteration :=
  take (length recursiveIterator - 1) recursiveIterator.

(** The row of a file or folder that is not private, lines 281-284 and
    306-309; nothing is appended for a private one. *)
Definition report (path : string) (kind : string) (access : string) (it : Item)
    (sheet : Sheet) : Sheet :=
  if negb (access =? "Private")%string
  then appendRow [Text (path +:+ getName it); Text kind; Text access] sheet
  else sheet.

(** [listFilesAndFolders(recursiveIterator, sheet)], lines 270-324: one step
    of the traversal.  The sheet is returned in every case, also when the step
    throws. *)
Definition listFilesAndFolders (drive : Service) (effectiveUserMail : string)
    (recursiveIterator : list Iteration) (sheet : Sheet) : Sheet * Res (list Iteration) :=
  match last recursiveIterator with
  | None => (sheet, Throw TypeError)
  | Some currentIteration =>
    match fileIteratorContinuationToken currentIteration with
    | Some fileToken =>
      match continueFileIterator drive fileToken with
      | Some (file, token) =>
        let path := folderPath recursiveIterator in
        let access := getSharingAccess effectiveUserMail file in
        let sheet := report path "File" access file sheet in
        let currentIteration :=
          {| folderName := folderName currentIteration;
             fileIteratorContinuationToken := Some token;
             folderIteratorContinuationToken :=
               folderIteratorContinuationToken currentIteration |} in
        (sheet, Ok (setLast currentIteration recursiveIterator))
      | None =>
        let currentIteration :=
          {| folderName := folderName currentIteration;
             fileIteratorContinuationToken := None;
             folderIteratorContinuationToken :=
               folderIteratorContinuationToken currentIteration |} in
        (sheet, Ok (setLast currentIteration recursiveIterator))
      end
    | None =>
      match folderIteratorContinuationToken currentIteration with
      | Some folderToken =>
        match continueFolderIterator drive folderToken with
        | Some (folder, token) =>
          let path := folderPath recursiveIterator in
          let access := getSharingAccess effectiveUserMail (item folder) in
          let sheet := report path "Folder" access (item folder) sheet in
          let currentIteration :=
            {| folderName := folderName currentIteration;
               fileIteratorContinuationToken :=
                 fileIteratorContinuationToken currentIteration;
               folderIteratorContinuationToken := Some token |} in
          (sheet, Ok (setLast currentIteration recursiveIterator
                        ++ [makeIterationFromFolder folder]))
        | None => (sheet, Ok (pop recursiveIterator))
        end
      | None => (sheet, Throw IteratorFailure)
      end
    end
  end.

(** ** String functions of JavaScript used by the script *)

(** [s.replace(/c/g, "")] for one character [c] *)
Fixpoint removeAll (c : ascii) (s : string) : string :=
  match s with
  | EmptyString => ""
  | String c' r => if (c' =? c)%char then removeAll c r else String c' (removeAll c r)
  end.

(** [s.substring(n)] *)
Fixpoint dropString (n : nat) (s : string) : string :=
  match n, s with
  | S n, String _ r => dropString n r
  | _, _ => s
  end.

(** [s.substring(0, n)] *)
Fixpoint takeString (n : nat) (s : string) : string :=
  match n, s with
  | S n, String c r => String c (takeString n r)
  | _, _ => ""
  end.

(** [s.replace(pattern, replacement)] with a string pattern: the first
    occurrence only. *)
Fixpoint replaceFirst (pattern replacement : string) (s : string) : string :=
  if String.prefix pattern s
  then replacement +:+ dropString (String.length pattern) s
  else match s with
       | EmptyString => ""
       | String c r => String c (replaceFirst pattern replacement r)
       end.

(** [s.lastIndexOf(pattern)]; [None] is [-1]. *)
Fixpoint lastIndexOf (pattern : string) (s : string) : option nat :=
  match s with
  | EmptyString => if String.prefix pattern s then Some 0 else None
  | String _ r =>
    match lastIndexOf pattern r with
    | Some i => Some (S i)
    | None => if String.prefix pattern s then Some 0 else None
    end
  end.

(** [s.split(c)] for one character [c] *)
Fixpoint split (c : ascii) (s : string) : list string :=
  match s with
  | EmptyString => [""]
  | String c' r =>
    if (c' =? c)%char then "" :: split c r
    else match split c r with
         | first :: others => String c' first :: others
         | [] => [String c' ""]
         end
  end.

(** ** JSON text

    [JSON.stringify] and [JSON.parse] are built in.  Strings are byte strings
    read as UTF-8 text: bytes from 128 on pass through both functions
    unchanged.  A number keeps its lexeme.  A [\uXXXX] escape is decoded one
    code unit at a time. *)

Module JSON.

Inductive value :=
  | Null
  | Bool (b : bool)
  | Num (lexeme : string)
  | Str (s : string)
  | Array (elements : list value)
  | Object (members : list (string * value)).

Definition dquote : ascii := "034"%char.
Definition backslash : ascii := "092"%char.

Definition hexDigit (n : N) : ascii :=
  if (n <? 10)%N then ascii_of_N (48 + n) else ascii_of_N (87 + n).

(** One character of a quoted string. *)
Definition escapeChar (c : ascii) : string :=
  let n := N_of_ascii c in
  if (c =? dquote)%char then String backslash (String dquote "")
  else if (c =? backslash)%char then String backslash (String backslash "")
  else if (n =? 8)%N then String backslash "b"
  else if (n =? 9)%N then String backslash "t"
  else if (n =? 10)%N then String backslash "n"
  else if (n =? 12)%N then String backslash "f"
  else if (n =? 13)%N then String backslash "r"
  else if (n <? 32)%N then
    String backslash (String "u" (String "0" (String "0"
      (String (hexDigit (n / 16)) (String (hexDigit (n mod 16)) "")))))
  else String c "".

Fixpoint escape (s : string) : string :=
  match s with
  | EmptyString => ""
  | String c s => escapeChar c +:+ escape s
  end.

Definition quote (s : string) : string :=
  String dquote (escape s +:+ String dquote "").

(** [JSON.stringify(v)] without indentation. *)
Fixpoint stringify (v : value) : string :=
  match v with
  | Null => "null"
  | Bool true => "true"
  | Bool false => "false"
  | Num lexeme => lexeme
  | Str s => quote s
  | Array elements =>
      "[" +:+ String.concat "," (map stringify elements) +:+ "]"
  | Object members =>
      "{" +:+ String.concat ","
               (map (fun m => quote (fst m) +:+ ":" +:+ stringify (snd m)) members)
          +:+ "}"
  end.

(** *** Parsing *)

Inductive parsed (A : Type) :=
  | Parsed (a : A) (rest : string)
  | Invalid
  | Fuel.
Arguments Parsed {A} a rest.
Arguments Invalid {A}.
Arguments Fuel {A}.

Definition isWhitespace (c : ascii) : bool :=
  (c =? " ")%char || (c =? "009")%char || (c =? "010")%char || (c =? "013")%char.

Fixpoint skipWhitespace (s : string) : string :=
  match s with
  | EmptyString => ""
  | String c r => if isWhitespace c then skipWhitespace r else s
  end.

Definition hexValue (c : ascii) : option N :=
  let n := N_of_ascii c in
  if (48 <=? n)%N && (n <=? 57)%N then Some (n - 48)%N
  else if (97 <=? n)%N && (n <=? 102)%N then Some (n - 87)%N
  else if (65 <=? n)%N && (n <=? 70)%N then Some (n - 55)%N
  else None.

(** The UTF-8 bytes of a code unit below 65536. *)
Definition utf8 (n : N) : string :=
  if (n <? 128)%N then String (ascii_of_N n) ""
  else if (n <? 2048)%N then
    String (ascii_of_N (192 + n / 64)) (String (ascii_of_N (128 + n mod 64)) "")
  else
    String (ascii_of_N (224 + n / 4096))
      (String (ascii_of_N (128 + (n / 64) mod 64))
         (String (ascii_of_N (128 + n mod 64)) "")).

Definition unescape (c : ascii) : option ascii :=
  if (c =? dquote)%char then Some dquote
  else if (c =? backslash)%char then Some backslash
  else if (c =? "/")%char then Some "/"%char
  else if (c =? "b")%char then Some "008"%char
  else if (c =? "t")%char then Some "009"%char
  else if (c =? "n")%char then Some "010"%char
  else if (c =? "f")%char then Some "012"%char
  else if (c =? "r")%char then Some "013"%char
  else None.

Inductive lexState :=
  | Plain
  | Escaped                 (* after a backslash *)
  | Hex (digits : list N).  (* after backslash u and these hex digits *)

Definition prepend (p : string) (r : option (string * string)) : option (string * string) :=
  match r with
  | Some (s, rest) => Some (p +:+ s, rest)
  | None => None
  end.

(** The characters of a string after its opening quote, up to and
    including the closing quote; the text after it is returned too. *)
Fixpoint stringBody (st : lexState) (s : string) : option (string * string) :=
  match s with
  | EmptyString => None
  | String c r =>
    match st with
    | Plain =>
      if (c =? dquote)%char then Some ("", r)
      else if (c =? backslash)%char then stringBody Escaped r
      else if (N_of_ascii c <? 32)%N then None
      else prepend (String c "") (stringBody Plain r)
    | Escaped =>
      if (c =? "u")%char then stringBody (Hex []) r
      else match unescape c with
           | Some c' => prepend (String c' "") (stringBody Plain r)
           | None => None
           end
    | Hex digits =>
      match hexValue c with
      | None => None
      | Some d =>
        let digits := digits ++ [d] in
        if (length digits =? 4)%nat
        then prepend (utf8 (foldl (fun n d => (16 * n + d)%N) 0%N digits))
                     (stringBody Plain r)
        else stringBody (Hex digits) r
      end
    end
  end.

Definition isDigit (c : ascii) : bool :=
  (48 <=? N_of_ascii c)%N && (N_of_ascii c <=? 57)%N.

(** The longest prefix of digits, and the rest. *)
Fixpoint digits (s : string) : string * string :=
  match s with
  | EmptyString => ("", "")
  | String c r =>
    if isDigit c then let (ds, rest) := digits r in (String c ds, rest)
    else ("", s)
  end.

(** A number: an optional minus sign; then 0, or a digit from 1 to 9 and
    any digits; then optionally a dot and one digit or more; then
    optionally e or E, an optional sign and one digit or more. *)
Definition number (s : string) : option (string * string) :=
  let (sign, s) :=
    match s with
    | String c r => if (c =? "-")%char then ("-", r) else ("", s)
    | EmptyString => ("", s)
    end in
  let (int, s) :=
    match s with
    | String c r =>
      if (c =? "0")%char then ("0", r)
      else if isDigit c then let (ds, rest) := digits r in (String c ds, rest)
      else ("", s)
    | EmptyString => ("", s)
    end in
  if (int =? "")%string then None else
  let frac :=
    match s with
    | String c r =>
      if (c =? ".")%char then
        let (ds, rest) := digits r in
        if (ds =? "")%string then None else Some ("." +:+ ds, rest)
      else Some ("", s)
    | EmptyString => Some ("", s)
    end in
  match frac with
  | None => None
  | Some (frac, s) =>
    match s with
    | String c r =>
      if (c =? "e")%char || (c =? "E")%char then
        let (esign, r) :=
          match r with
          | String c' r' =>
            if (c' =? "+")%char || (c' =? "-")%char then (String c' "", r') else ("", r)
          | EmptyString => ("", r)
          end in
        let (ds, rest) := digits r in
        if (ds =? "")%string then None
        else Some (sign +:+ int +:+ frac +:+ String c esign +:+ ds, rest)
      else Some (sign +:+ int +:+ frac, s)
    | EmptyString => Some (sign +:+ int +:+ frac, s)
    end
  end.

(** [literal w v s]: the word [w] at the head of [s] is the value [v]. *)
Definition literal (w : string) (v : value) (s : string) : parsed value :=
  if String.prefix w s then Parsed v (dropString (String.length w) s) else Invalid.

Fixpoint parseValue (fuel : nat) (s : string) : parsed value :=
  match fuel with
  | O => Fuel
  | S fuel =>
    match skipWhitespace s with
    | EmptyString => Invalid
    | String c r =>
      if (c =? "{")%char then
        match skipWhitespace r with
        | String c' r' =>
          if (c' =? "}")%char then Parsed (Object []) r'
          else match parseMembers fuel r with
               | Parsed members rest => Parsed (Object members) rest
               | Invalid => Invalid
               | Fuel => Fuel
               end
        | EmptyString => Invalid
        end
      else if (c =? "[")%char then
        match skipWhitespace r with
        | String c' r' =>
          if (c' =? "]")%char then Parsed (Array []) r'
          else match parseElements fuel r with
               | Parsed elements rest => Parsed (Array elements) rest
               | Invalid => Invalid
               | Fuel => Fuel
               end
        | EmptyString => Invalid
        end
      else if (c =? dquote)%char then
        match stringBody Plain r with
        | Some (str, rest) => Parsed (Str str) rest
        | None => Invalid
        end
      else if (c =? "n")%char then literal "null" Null (String c r)
      else if (c =? "t")%char then literal "true" (Bool true) (String c r)
      else if (c =? "f")%char then literal "false" (Bool false) (String c r)
      else match number (String c r) with
           | Some (lexeme, rest) => Parsed (Num lexeme) rest
           | None => Invalid
           end
    end
  end
with parseElements (fuel : nat) (s : string) : parsed (list value) :=
  match fuel with
  | O => Fuel
  | S fuel =>
    match parseValue fuel s with
    | Parsed v r =>
      match skipWhitespace r with
      | String c r' =>
        if (c =? ",")%char then
          match parseElements fuel r' with
          | Parsed vs rest => Parsed (v :: vs) rest
          | Invalid => Invalid
          | Fuel => Fuel
          end
        else if (c =? "]")%char then Parsed [v] r'
        else Invalid
      | EmptyString => Invalid
      end
    | Invalid => Invalid
    | Fuel => Fuel
    end
  end
with parseMembers (fuel : nat) (s : string) : parsed (list (string * value)) :=
  match fuel with
  | O => Fuel
  | S fuel =>
    match skipWhitespace s with
    | String c r =>
      if (c =? dquote)%char then
        match stringBody Plain r with
        | Some (key, r1) =>
          match skipWhitespace r1 with
          | String c1 r2 =>
            if (c1 =? ":")%char then
              match parseValue fuel r2 with
              | Parsed v r3 =>
                match skipWhitespace r3 with
                | String c3 r4 =>
                  if (c3 =? ",")%char then
                    match parseMembers fuel r4 with
                    | Parsed ms rest => Parsed ((key, v) :: ms) rest
                    | Invalid => Invalid
                    | Fuel => Fuel
                    end
                  else if (c3 =? "}")%char then Parsed [(key, v)] r4
                  else Invalid
                | EmptyString => Invalid
                end
              | Invalid => Invalid
              | Fuel => Fuel
              end
            else Invalid
          | EmptyString => Invalid
          end
        | None => Invalid
        end
      else Invalid
    | EmptyString => Invalid
    end
  end.

(** [JSON.parse(text)]; the fuel is never used up on a text of this
    length. *)
Definition parse (text : string) : Res value :=
  match parseValue (2 * String.length text + 2) text with
  | Parsed v rest =>
    match skipWhitespace rest with
    | EmptyString => Ok v
    | String _ _ => Throw SyntaxError
    end
  | Invalid => Throw SyntaxError
  | Fuel => OutOfFuel
  end.

End JSON.

(** ** The persisted iterator *)

(** The JSON value of [recursiveIterator]: an array of objects whose
    properties are in the order in which [makeIterationFromFolder] creates
    them. *)
Definition tokenToJSON (token : option string) : JSON.value :=
  match token with
  | Some s => JSON.Str s
  | None => JSON.Null
  end.

Definition iterationToJSON (iteration : Iteration) : JSON.value :=
  JSON.Object
    [("folderName", JSON.Str (folderName iteration));
     ("fileIteratorContinuationToken",
      tokenToJSON (fileIteratorContinuationToken iteration));
     ("folderIteratorContinuationToken",
      tokenToJSON (folderIteratorContinuationToken iteration))].

Definition iteratorToJSON (recursiveIterator : list Iteration) : JSON.value :=
  JSON.Array (map iterationToJSON recursiveIterator).

(** The way back, for the values the script writes.  Any other value is
    outside the model ([None]). *)
Definition tokenOfJSON (v : JSON.value) : option (option string) :=
  match v with
  | JSON.Str s => Some (Some s)
  | JSON.Null => Some None
  | _ => None
  end.

Definition iterationOfJSON (v : JSON.value) : option Iteration :=
  match v with
  | JSON.Object [(k1, JSON.Str name); (k2, files); (k3, folders)] =>
    if (k1 =? "folderName")%string
       && (k2 =? "fileIteratorContinuationToken")%string
       && (k3 =? "folderIteratorContinuationToken")%string
    then match tokenOfJSON files, tokenOfJSON folders with
         | Some files, Some folders =>
           Some {| folderName := name;
                   fileIteratorContinuationToken := files;
                   folderIteratorContinuationToken := folders |}
         | _, _ => None
         end
    else None
  | _ => None
  end.

Definition iteratorOfJSON (elements : list JSON.value) : option (list Iteration) :=
  mapM iterationOfJSON elements.

(** ** The world of one execution *)

(** A spreadsheet: its active sheet and the others.  In this script the
    active sheet is always the first one. *)
Record Spreadsheet := {
  activeSheet : Sheet;
  otherSheets : list Sheet;
}.

(** [SpreadsheetApp.create(name)] *)
Definition newSpreadsheet : Spreadsheet := {| activeSheet := []; otherSheets := [] |}.

(** What the script changes: the user properties, the spreadsheet named
    [REPORT_SPREADSHEET_NAME] if there is one, and the number of times the
    clock was read. *)
Record World := {
  userProperties : gmap string string;
  reportFile : option Spreadsheet;
  dateReads : nat;
}.

(** What the script reads and does not change.  [clock n] is the value of
    the [n]-th [new Date()] of the execution, in milliseconds.  The three
    settings are the constants of lines 37, 41 and 62. *)
Record Env := {
  drive : Service;
  effectiveUser : User;
  clock : nat -> Z;
  toLocaleString : Z -> string;
  START_FOLDER_PATH : string;
  FORCE_NEW_ITERATION : bool;
  MAX_EXECUTION_TIME_IN_MS : Z;
}.

Definition RECURSIVE_ITERATOR_KEY : string := "RECURSIVE_ITERATOR_KEY".

(** Cells B1, B2 and B3, as row and column indices from 0. *)
Definition REPORT_SPREADSHEET_CELL_LAST_RUN : nat * nat := (0, 1).
Definition REPORT_SPREADSHEET_CELL_ITERATIONS : nat * nat := (1, 1).
Definition REPORT_SPREADSHEET_CELL_ITERATION_FINISHED : nat * nat := (2, 1).

(** [sheet.getRange(cell).getValue()]; an empty cell reads as the empty
    string. *)
Definition getValue (cell : nat * nat) (sheet : Sheet) : Cell :=
  default (Text "") (row ← sheet !! cell.1; row !! cell.2).

(** [sheet.getRange(cell).setValue(v)]; the grid grows as needed. *)
Definition setValue (cell : nat * nat) (v : Cell) (sheet : Sheet) : Sheet :=
  let sheet := sheet ++ replicate (S cell.1 - length sheet) [] in
  let row := default [] (sheet !! cell.1) in
  let row := row ++ replicate (S cell.2 - length row) (Text "") in
  <[cell.1 := <[cell.2 := v]> row]> sheet.

(** [value + 1] *)
Definition plusOne (value : Cell) : Cell :=
  match value with
  | Number n => Number (n + 1)
  | Text s => Text (s +:+ "1")
  end.

(** State and exceptions. *)
Definition M (A : Type) : Type := World -> World * Res A.

Definition ret {A : Type} (a : A) : M A := fun w => (w, Ok a).

Definition throw {A : Type} (e : Exn) : M A := fun w => (w, Throw e).

Definition bind {A B : Type} (m : M A) (k : A -> M B) : M B :=
  fun w =>
    match m w with
    | (w', Ok a) => k a w'
    | (w', Throw e) => (w', Throw e)
    | (w', OutOfFuel) => (w', OutOfFuel)
    | (w', OutsideModel) => (w', OutsideModel)
    end.

Notation "'let*' x ':=' m 'in' k" := (bind m (fun x => k))
  (at level 10, x pattern, m at level 100, k at level 200).

(** [new Date()] and its time in milliseconds. *)
Definition newDate (env : Env) : M Z :=
  fun w =>
    ({| userProperties := userProperties w;
        reportFile := reportFile w;
        dateReads := S (dateReads w) |},
     Ok (clock env (dateReads w))).

Definition getProperty (key : string) : M (option string) :=
  fun w => (w, Ok (userProperties w !! key)).

Definition setProperty (key value : string) : M unit :=
  fun w =>
    ({| userProperties := <[key := value]> (userProperties w);
        reportFile := reportFile w;
        dateReads := dateReads w |}, Ok tt).

Definition deleteProperty (key : string) : M unit :=
  fun w =>
    ({| userProperties := delete key (userProperties w);
        reportFile := reportFile w;
        dateReads := dateReads w |}, Ok tt).

(** The report spreadsheet; it exists from [prepareSpreadsheetForReport] on. *)
Definition spreadsheet (w : World) : Spreadsheet := default newSpreadsheet (reportFile w).

Definition setSpreadsheet (s : Spreadsheet) (w : World) : World :=
  {| userProperties := userProperties w;
     reportFile := Some s;
     dateReads := dateReads w |}.

(** A change of the active sheet of the report. *)
Definition onSheet (f : Sheet -> Sheet) : M unit :=
  fun w =>
    (setSpreadsheet {| activeSheet := f (activeSheet (spreadsheet w));
                       otherSheets := otherSheets (spreadsheet w) |} w, Ok tt).

(** [spreadsheet.insertSheet(0)]: a new first sheet, which becomes active. *)
Definition insertSheet : M unit :=
  fun w =>
    (setSpreadsheet {| activeSheet := [];
                       otherSheets := activeSheet (spreadsheet w)
                                        :: otherSheets (spreadsheet w) |} w, Ok tt).

(** ** The script *)

Section Script.

Context (env : Env).

(** [prettyPrintUserProperties(userProperties)], lines 149-162.  The text
    that is logged is not kept; what matters is that [JSON.parse] at line
    160 can throw.  [getProperties()] lists the properties in the order of
    the map. *)
Definition prettyPrintUserProperties : M unit :=
  fun w =>
    let properties :=
      JSON.Object (map (fun p => (p.1, JSON.Str p.2)) (map_to_list (userProperties w))) in
    let formattedProperties := removeAll JSON.backslash (JSON.stringify properties) in
    let formattedProperties :=
      replaceFirst (String JSON.dquote "[") "[" formattedProperties in
    let formattedProperties :=
      match lastIndexOf (String "]" (String JSON.dquote "")) formattedProperties with
      | Some lastIndexOfSquareBracket =>
        takeString lastIndexOfSquareBracket formattedProperties
        +:+ replaceFirst (String "]" (String JSON.dquote "")) "]"
              (dropString lastIndexOfSquareBracket formattedProperties)
      | None => formattedProperties
      end in
    match JSON.parse formattedProperties with
    | Ok _ => (w, Ok tt)
    | Throw e => (w, Throw e)
    | OutOfFuel => (w, OutOfFuel)
    | OutsideModel => (w, OutsideModel)
    end.

(** [prepareSpreadsheetForReport()], lines 165-177: the existing
    spreadsheet is opened, or a new one is created. *)
Definition prepareSpreadsheetForReport : M unit :=
  fun w => (setSpreadsheet (spreadsheet w) w, Ok tt).

(** [createNewSheet(spreadsheet)], lines 222-229 *)
Definition createNewSheet : M unit :=
  let* _ := insertSheet in
  let* now := newDate env in
  let* _ := onSheet (appendRow [Text "Start time of the last run";
                                Text (toLocaleString env now)]) in
  let* _ := onSheet (appendRow [Text "Number of runs"; Number 1]) in
  let* _ := onSheet (appendRow [Text "Iteration finished"; Text "running"]) in
  onSheet (appendRow [Text "Name"; Text "Type"; Text "Shared"]).

(** [updateSheet(spreadsheet)], lines 232-238 *)
Definition updateSheet : M unit :=
  let* now := newDate env in
  let* _ := onSheet (setValue REPORT_SPREADSHEET_CELL_LAST_RUN
                       (Text (toLocaleString env now))) in
  let* _ := onSheet (fun sheet =>
              setValue REPORT_SPREADSHEET_CELL_ITERATIONS
                (plusOne (getValue REPORT_SPREADSHEET_CELL_ITERATIONS sheet)) sheet) in
  onSheet (setValue REPORT_SPREADSHEET_CELL_ITERATION_FINISHED (Text "running")).

(** The loop of [getFolderByPath], lines 245-255. *)
Fixpoint getFolderFrom (currentFolder : Folder) (folders : list string) : option Folder :=
  match folders with
  | [] => Some currentFolder
  | folderName :: folders =>
    match getFoldersByName (drive env) currentFolder folderName with
    | Some subfolder => getFolderFrom subfolder folders
    | None => None
    end
  end.

(** [getFolderByPath(path)], lines 241-258; [None] is [null]. *)
Definition getFolderByPath (path : string) : option Folder :=
  getFolderFrom (getRootFolder (drive env)) (split "/" path).

(** A new iteration from the root folder, as in lines 188-191 and
    210-213. *)
Definition startFromRoot : M (list Iteration) :=
  let recursiveIterator := [] ++ [makeIterationFromFolder (getRootFolder (drive env))] in
  let* _ := createNewSheet in
  ret recursiveIterator.

(** [prepareIteration(spreadsheet)], lines 180-219.  [JSON.parse(null)] is
    [null]. *)
Definition prepareIteration : M (list Iteration) :=
  let* property := getProperty RECURSIVE_ITERATOR_KEY in
  let* recursiveIterator :=
    (fun w => (w, JSON.parse (default "null" property))) in
  if FORCE_NEW_ITERATION env then startFromRoot
  else if negb (START_FOLDER_PATH env =? "")%string then
    match getFolderByPath (START_FOLDER_PATH env) with
    | Some folder =>
      let recursiveIterator := [] ++ [makeIterationFromFolder folder] in
      let* _ := createNewSheet in
      ret recursiveIterator
    | None => throw TypeError
    end
  else
    match recursiveIterator with
    | JSON.Null => startFromRoot
    | JSON.Array elements =>
      match iteratorOfJSON elements with
      | Some recursiveIterator =>
        let* _ := updateSheet in
        ret recursiveIterator
      | None => fun w => (w, OutsideModel)
      end
    | _ => throw TypeError
    end.

(** One call of [listFilesAndFolders] on the active sheet, line 129. *)
Definition step (recursiveIterator : list Iteration) : M (list Iteration) :=
  fun w =>
    let (sheet, result) :=
      listFilesAndFolders (drive env) (getEmail (effectiveUser env))
        recursiveIterator (activeSheet (spreadsheet w)) in
    (setSpreadsheet {| activeSheet := sheet;
                       otherSheets := otherSheets (spreadsheet w) |} w, result).

(** The loop of [main] and what follows it, lines 128-145.  [fuel] bounds
    the number of steps of the model; the script has no such bound. *)
Fixpoint mainLoop (fuel : nat) (startTime : Z) (recursiveIterator : list Iteration)
    : M unit :=
  match recursiveIterator with
  | [] =>
    let* _ := deleteProperty RECURSIVE_ITERATOR_KEY in
    onSheet (setValue REPORT_SPREADSHEET_CELL_ITERATION_FINISHED (Text "yes"))
  | _ :: _ =>
    match fuel with
    | O => fun w => (w, OutOfFuel)
    | S fuel =>
      let* recursiveIterator := step recursiveIterator in
      let* currentTime := newDate env in
      let elapsedTimeInMS := (currentTime - startTime)%Z in
      let timeLimitExceeded := (MAX_EXECUTION_TIME_IN_MS env <=? elapsedTimeInMS)%Z in
      if timeLimitExceeded then
        let* _ := setProperty RECURSIVE_ITERATOR_KEY
                    (JSON.stringify (iteratorToJSON recursiveIterator)) in
        let* _ := onSheet (setValue REPORT_SPREADSHEET_CELL_ITERATION_FINISHED
                             (Text "no")) in
        prettyPrintUserProperties
      else mainLoop fuel startTime recursiveIterator
    end
  end.

(** [main()], lines 113-146 *)
Definition main (fuel : nat) : M unit :=
  let* startTime := newDate env in
  let* _ := prettyPrintUserProperties in
  let* _ := prepareSpreadsheetForReport in
  let* recursiveIterator := prepareIteration in
  mainLoop fuel startTime recursiveIterator.

End Script.

(** ** Repeated steps *)

(** Which branch of [listFilesAndFolders] a call takes: a file iterator is
    advanced (lines 273-296), a folder iterator yields a folder that is pushed
    (lines 301-314), or the current entry is popped (lines 315-319). *)
Inductive StepKind := LeafPageAdvance | ChildPageAdvance | PopOperation.

Global Instance StepKind_eq_dec : EqDecision StepKind.
Proof. solve_decision. Defined.

Definition stepKind (drive : Service) (recursiveIterator : list Iteration) : option StepKind :=
  match last recursiveIterator with
  | None => None
  | Some currentIteration =>
    match fileIteratorContinuationToken currentIteration with
    | Some _ => Some LeafPageAdvance
    | None =>
      match folderIteratorContinuationToken currentIteration with
      | Some folderToken =>
        match continueFolderIterator drive folderToken with
        | Some _ => Some ChildPageAdvance
        | None => Some PopOperation
        end
      | None => None
      end
    end
  end.

(** [run n] makes [n] calls of [listFilesAndFolders], each on the result of
    the one before, and stops at the first call that throws.  It returns the
    kinds of the calls that returned, the sheet and the last result. *)
Fixpoint run (drive : Service) (effectiveUserMail : string) (n : nat)
    (recursiveIterator : list Iteration) (sheet : Sheet)
    : list StepKind * (Sheet * Res (list Iteration)) :=
  match n with
  | O => ([], (sheet, Ok recursiveIterator))
  | S n =>
    match listFilesAndFolders drive effectiveUserMail recursiveIterator sheet with
    | (sheet', Ok recursiveIterator') =>
      let (kinds, result) := run drive effectiveUserMail n recursiveIterator' sheet' in
      (option_list (stepKind drive recursiveIterator) ++ kinds, result)
    | (sheet', failure) => ([], (sheet', failure))
    end
  end.

(** ** Notions used in the statements *)

(** The owner, the viewers and the editors of [it] are all [me] and its
    access is [PRIVATE]. *)
Definition onlyMine (me : string) (it : Item) : Prop :=
  DriveApp.getSharingAccess it = PRIVATE
  /\ getEmail (getOwner it) = me
  /\ Forall (fun v => getEmail v = me) (getViewers it)
  /\ Forall (fun e => getEmail e = me) (getEditors it).

(** The file or folder that [next()] returns in a call of
    [listFilesAndFolders], with the text of its kind; [None] when the call
    reaches no [next()]. *)
Definition yielded (drive : Service) (recursiveIterator : list Iteration)
    : option (string * Item) :=
  match last recursiveIterator with
  | None => None
  | Some currentIteration =>
    match fileIteratorContinuationToken currentIteration with
    | Some fileToken =>
      match continueFileIterator drive fileToken with
      | Some (file, _) => Some ("File", file)
      | None => None
      end
    | None =>
      match folderIteratorContinuationToken currentIteration with
      | Some folderToken =>
        match continueFolderIterator drive folderToken with
        | Some (folder, _) => Some ("Folder", item folder)
        | None => None
        end
      | None => None
      end
    end
  end.

(** The entry of a folder named [name] with the two continuation tokens. *)
Definition entry (name : string) (files folders : option string) : Iteration :=
  {| folderName := name;
     fileIteratorContinuationToken := files;
     folderIteratorContinuationToken := folders |}.

(** ** Finite folder trees

    A finite tree of folders, for the statements about whole traversals: the
    item of the folder, its files and its subfolders, each in the order in
    which the iterators of the service yield them. *)
Inductive Tree := Node (folder : Item) (files : list Item) (subfolders : list Tree).

Definition rootItem (t : Tree) : Item :=
  match t with Node folder _ _ => folder end.

(** The file iterator resumed from [token] yields exactly [files]. *)
Fixpoint yieldsFiles (drive : Service) (token : string) (files : list Item) : bool :=
  match files with
  | [] => match continueFileIterator drive token with None => true | Some _ => false end
  | file :: files =>
    match continueFileIterator drive token with
    | Some (file', token') => bool_decide (file' = file) && yieldsFiles drive token' files
    | None => false
    end
  end.

(** The folder iterator resumed from [token] yields exactly folders that
    [shows] relates to [subfolders]. *)
Fixpoint yieldsFolders (shows : Folder -> Tree -> bool) (drive : Service)
    (token : string) (subfolders : list Tree) : bool :=
  match subfolders with
  | [] => match continueFolderIterator drive token with None => true | Some _ => false end
  | t :: subfolders =>
    match continueFolderIterator drive token with
    | Some (folder, token') => shows folder t && yieldsFolders shows drive token' subfolders
    | None => false
    end
  end.

(** The service shows the tree [t] below [folder]. *)
Fixpoint shows (drive : Service) (folder : Folder) (t : Tree) : bool :=
  match t with
  | Node it files subfolders =>
    bool_decide (item folder = it)
    && yieldsFiles drive (getFiles folder) files
    && yieldsFolders (fun folder t => shows drive folder t) drive (getFolders folder) subfolders
  end.

(** The rows of a whole traversal, as section 4.2 of the specification orders
    them: the files of a folder first, then each subfolder followed by
    everything below it.  [path] is the names of the entries of the iterator,
    the folder's own entry last. *)
Definition fileRows (effectiveUserMail : string) (path : list string) (files : list Item)
    : list Row :=
  flat_map (fun file => report (String.concat "/" path) "File"
                          (getSharingAccess effectiveUserMail file) file []) files.

Fixpoint treeRows (effectiveUserMail : string) (path : list string) (t : Tree) : list Row :=
  match t with
  | Node _ files subfolders =>
    fileRows effectiveUserMail path files
    ++ flat_map (fun s =>
         report (String.concat "/" path) "Folder"
           (getSharingAccess effectiveUserMail (rootItem s)) (rootItem s) []
         ++ treeRows effectiveUserMail (path ++ [getName (rootItem s)]) s) subfolders
  end.

(** The calls of a whole traversal: one per file and one more to find the
    files exhausted, one per subfolder before the calls of its subtree, and
    the pop. *)
Fixpoint treeKinds (t : Tree) : list StepKind :=
  match t with
  | Node _ files subfolders =>
    replicate (S (length files)) LeafPageAdvance
    ++ flat_map (fun s => ChildPageAdvance :: treeKinds s) subfolders
    ++ [PopOperation]
  end.

Fixpoint countFiles (t : Tree) : nat :=
  match t with
  | Node _ files subfolders => length files + sum_list (map countFiles subfolders)
  end.

Fixpoint countFolders (t : Tree) : nat :=
  match t with
  | Node _ _ subfolders => S (sum_list (map countFolders subfolders))
  end.

(** ** A small Drive

    The folder [rootName] holds the shared file [a.txt] and the private folder
    [subName], which holds the shared file [b.txt]. *)
Module SmallDrive.

Definition me : User := {| getEmail := "me@example.com" |}.

Definition sharedItem (name : string) : Item :=
  {| getName := name; DriveApp.getSharingAccess := ANYONE_WITH_LINK;
     getOwner := me; getViewers := []; getEditors := [] |}.

Definition privateItem (name : string) : Item :=
  {| getName := name; DriveApp.getSharingAccess := PRIVATE;
     getOwner := me; getViewers := []; getEditors := [me] |}.

Definition sub (subName : string) : Folder :=
  {| item := privateItem subName;
     getFiles := "sub-files-0";
     getFolders := "sub-folders-0" |}.

Definition root (rootName : string) : Folder :=
  {| item := privateItem rootName;
     getFiles := "root-files-0";
     getFolders := "root-folders-0" |}.

Definition service (rootName subName : string) : Service :=
  {| getRootFolder := root rootName;
     continueFileIterator token :=
       if (token =? "root-files-0")%string then Some (sharedItem "a.txt", "root-files-1")
       else if (token =? "sub-files-0")%string then Some (sharedItem "b.txt", "sub-files-1")
       else None;
     continueFolderIterator token :=
       if (token =? "root-folders-0")%string then Some (sub subName, "root-folders-1")
       else None;
     getFoldersByName folder name :=
       if (getName (item folder) =? rootName)%string && (name =? subName)%string
       then Some (sub subName) else None |}.

Definition tree (rootName subName : string) : Tree :=
  Node (privateItem rootName) [sharedItem "a.txt"]
    [Node (privateItem subName) [sharedItem "b.txt"] []].

(** An environment with the settings of the script as published (no start
    folder, no forced new iteration, four minutes) and a clock that ticks
    [millisecondsPerRead] at each reading. *)
Definition env (rootName subName : string) (millisecondsPerRead : Z) : Env :=
  {| drive := service rootName subName;
     effectiveUser := me;
     clock n := (Z.of_nat n * millisecondsPerRead)%Z;
     toLocaleString t := "";
     START_FOLDER_PATH := "";
     FORCE_NEW_ITERATION := false;
     MAX_EXECUTION_TIME_IN_MS := 4 * 60 * 1000 |}.

Definition emptyWorld : World :=
  {| userProperties := ∅; reportFile := None; dateReads := 0 |}.

(** A folder name with a double quote in it, between [a] and [b]. *)
Definition quotedName : string := "a" +:+ String JSON.dquote "b".

(** A new execution in the world that [w] leaves: the clock is read from
    the start again. *)
Definition nextExecution (w : World) : World :=
  {| userProperties := userProperties w;
     reportFile := reportFile w;
     dateReads := 0 |}.

(** The world after [n] executions of [main] in a row, and the result of
    the last one. *)
Fixpoint executions (env : Env) (fuel : nat) (n : nat) (w : World) : World * Res unit :=
  match n with
  | O => (w, Ok tt)
  | S n =>
    let (w', _) := executions env fuel n w in
    main env fuel (nextExecution w')
  end.

End SmallDrive.

(** ** Notions used in the statements about [prepareIteration] and [main] *)

(** The number of calls of one kind. *)
Definition countKind (kind : StepKind) (kinds : list StepKind) : nat :=
  length (filter (fun k => k = kind) kinds).

(** The sheet that [createNewSheet] fills when the clock reads [now]. *)
Definition newSheet (env : Env) (now : Z) : Sheet :=
  [[Text "Start time of the last run"; Text (toLocaleString env now)];
   [Text "Number of runs"; Number 1];
   [Text "Iteration finished"; Text "running"];
   [Text "Name"; Text "Type"; Text "Shared"]].


(** [result] resumes [recursiveIterator] in the sheet of the last iteration:
    no sheet is added, the rows below the three status rows are kept, the
    number of runs is one more and the third status cell reads "running". *)
Definition continuesSheet (w : World) (recursiveIterator : list Iteration)
    (result : World * Res (list Iteration)) : Prop :=
  result.2 = Ok recursiveIterator
  /\ userProperties result.1 = userProperties w
  /\ otherSheets (spreadsheet result.1) = otherSheets (spreadsheet w)
  /\ drop 3 (activeSheet (spreadsheet result.1)) = drop 3 (activeSheet (spreadsheet w))
  /\ getValue REPORT_SPREADSHEET_CELL_ITERATIONS (activeSheet (spreadsheet result.1))
     = plusOne (getValue REPORT_SPREADSHEET_CELL_ITERATIONS (activeSheet (spreadsheet w)))
  /\ getValue REPORT_SPREADSHEET_CELL_ITERATION_FINISHED (activeSheet (spreadsheet result.1))
     = Text "running".


(** ** Notions used in the statements about whole executions *)

(** The entry has a folder token, as every entry that
    [makeIterationFromFolder] makes and every entry that
    [listFilesAndFolders] writes back from such an entry. *)
Definition hasFolderToken (iteration : Iteration) : bool :=
  match folderIteratorContinuationToken iteration with
  | Some _ => true
  | None => false
  end.

Definition wellFormed (recursiveIterator : list Iteration) : bool :=
  forallb hasFolderToken recursiveIterator.

(** A character that [JSON.stringify] writes as it is between quotes: no
    double quote, no backslash, no control character. *)
Definition plainChar (c : ascii) : bool :=
  negb (c =? JSON.dquote)%char && negb (c =? JSON.backslash)%char
  && negb (N_of_ascii c <? 32)%N.

Fixpoint plain (s : string) : bool :=
  match s with
  | EmptyString => true
  | String c r => plainChar c && plain r
  end.

(** No backslash and no control character. *)
Definition quietChar (c : ascii) : bool :=
  negb (c =? JSON.backslash)%char && negb (N_of_ascii c <? 32)%N.

Fixpoint quiet (s : string) : bool :=
  match s with
  | EmptyString => true
  | String c r => quietChar c && quiet r
  end.

Definition plainToken (token : option string) : bool :=
  match token with
  | Some s => plain s
  | None => true
  end.

(** The folder names and the tokens of the stack are plain. *)
Definition plainIterator (recursiveIterator : list Iteration) : bool :=
  forallb (fun iteration =>
             plain (folderName iteration)
             && plainToken (fileIteratorContinuationToken iteration)
             && plainToken (folderIteratorContinuationToken iteration))
          recursiveIterator.

(** The service hands out plain tokens only, and the folders that its
    iterators yield have plain names. *)
Definition plainService (drive : Service) : Prop :=
  (forall token file token',
     continueFileIterator drive token = Some (file, token') -> plain token' = true)
  /\ (forall token folder token',
        continueFolderIterator drive token = Some (folder, token') ->
        plain token' = true
        /\ plain (getName (item folder)) = true
        /\ plain (getFiles folder) = true
        /\ plain (getFolders folder) = true).

(** No [/] in the string. *)
Fixpoint noSlash (s : string) : bool :=
  match s with
  | EmptyString => true
  | String c r => negb (c =? "/")%char && noSlash r
  end.

(** The world in which the next execution starts: the properties and the
    report are kept, the clock is read from [reads] on. *)
Definition later (reads : nat) (w : World) : World :=
  {| userProperties := userProperties w;
     reportFile := reportFile w;
     dateReads := reads |}.

(** * Properties *)

(** ** The stack as a list *)

Lemma setLast_snoc (below : list Iteration) (x y : Iteration) :
  setLast y (below ++ [x]) = below ++ [y].
Proof.
  unfold setLast. rewrite length_app. simpl.
  replace (length below + 1 - 1) with (length below + 0) by lia.
  by rewrite insert_app_r.
Qed.

Lemma pop_snoc (below : list Iteration) (x : Iteration) : pop (below ++ [x]) = below.
Proof.
  unfold pop. rewrite length_app. simpl.
  replace (length below + 1 - 1) with (length below) by lia.
  by rewrite take_app_length.
Qed.

Lemma folderPath_snoc (below : list Iteration) (x : Iteration) :
  folderPath (below ++ [x]) = String.concat "/" (map folderName below ++ [folderName x]).
Proof. unfold folderPath. by rewrite map_app. Qed.

Lemma report_app path kind access it (sheet : Sheet) :
  report path kind access it sheet = sheet ++ report path kind access it [].
Proof.
  unfold report, appendRow. destruct (negb _); simpl; [done|]. by rewrite app_nil_r.
Qed.

(** ** Classification *)

Lemma existsb_other_false (me : string) (users : list User) :
  existsb (fun u => negb (getEmail u =? me)%string) users = false
  <-> Forall (fun u => getEmail u = me) users.
Proof.
  induction users as [|u users IH]; simpl.
  - split; [constructor | done].
  - rewrite orb_false_iff, IH, negb_false_iff, String.eqb_eq.
    split; [intros [? ?]; by constructor | by inversion 1].
Qed.

(** C5. [getSharingAccess] returns "Private" exactly when the access of the
    item is [PRIVATE], its owner is the effective user, and every viewer and
    every editor is the effective user; in every other case it returns
    "Shared". *)
Theorem getSharingAccess_private_iff (me : string) (it : Item) :
  (getSharingAccess me it = "Private" <-> onlyMine me it)
  /\ (getSharingAccess me it = "Shared" <-> ~ onlyMine me it).
Proof.
  unfold getSharingAccess, onlyMine.
  destruct (bool_decide_reflect (DriveApp.getSharingAccess it = PRIVATE)) as [Ha|Ha];
    [|split; (split; [done || tauto | tauto || done])].
  destruct (String.eqb_spec (getEmail (getOwner it)) me) as [Ho|Ho]; simpl;
    [|split; (split; [done || tauto | tauto || done])].
  destruct (existsb _ (getViewers it)) eqn:Hv.
  { assert (~ Forall (fun v => getEmail v = me) (getViewers it)).
    { rewrite <- existsb_other_false, Hv. done. }
    split; (split; [done || tauto | tauto || done]). }
  apply existsb_other_false in Hv.
  destruct (existsb _ (getEditors it)) eqn:He.
  { assert (~ Forall (fun v => getEmail v = me) (getEditors it)).
    { rewrite <- existsb_other_false, He. done. }
    split; (split; [done || tauto | tauto || done]). }
  apply existsb_other_false in He.
  split; (split; [done || tauto | tauto || done]).
Qed.

Lemma getSharingAccess_cases (me : string) (it : Item) :
  getSharingAccess me it = "Shared" \/ getSharingAccess me it = "Private".
Proof.
  unfold getSharingAccess.
  repeat match goal with |- context [if ?b then _ else _] => destruct b end; auto.
Qed.

Lemma report_row path kind me (it : Item) :
  report path kind (getSharingAccess me it) it [] =
  if bool_decide (getSharingAccess me it = "Shared")
  then [[Text (path +:+ getName it); Text kind; Text "Shared"]] else [].
Proof.
  unfold report, appendRow.
  destruct (getSharingAccess_cases me it) as [H|H]; rewrite H; reflexivity.
Qed.

(** ** One step *)

(** The sheet after a call: the row of the item that the call yields is
    appended when the item classifies as "Shared". *)
Lemma listFilesAndFolders_sheet (drive : Service) (me : string)
    (recursiveIterator : list Iteration) (sheet : Sheet) :
  (listFilesAndFolders drive me recursiveIterator sheet).1 =
  sheet ++ match yielded drive recursiveIterator with
           | Some (kind, node) =>
             if bool_decide (getSharingAccess me node = "Shared")
             then [[Text (folderPath recursiveIterator +:+ getName node);
                    Text kind; Text "Shared"]]
             else []
           | None => []
           end.
Proof.
  unfold listFilesAndFolders, yielded.
  destruct (last recursiveIterator) as [cur|]; simpl; [|by rewrite app_nil_r].
  destruct (fileIteratorContinuationToken cur) as [ftok|].
  - destruct (continueFileIterator drive ftok) as [[file tok]|]; simpl;
      [|by rewrite app_nil_r].
    by rewrite report_app, report_row.
  - destruct (folderIteratorContinuationToken cur) as [dtok|]; simpl;
      [|by rewrite app_nil_r].
    destruct (continueFolderIterator drive dtok) as [[folder tok]|]; simpl;
      [|by rewrite app_nil_r].
    by rewrite report_app, report_row.
Qed.

(** A call that yields an item returns. *)
Lemma listFilesAndFolders_yielded (drive : Service) (me : string)
    (recursiveIterator : list Iteration) (sheet : Sheet) :
  match yielded drive recursiveIterator with
  | Some _ => exists recursiveIterator',
      (listFilesAndFolders drive me recursiveIterator sheet).2 = Ok recursiveIterator'
  | None => True
  end.
Proof.
  unfold listFilesAndFolders, yielded.
  destruct (last recursiveIterator) as [cur|]; [|done].
  destruct (fileIteratorContinuationToken cur) as [ftok|].
  - destruct (continueFileIterator drive ftok) as [[file tok]|]; simpl; eauto.
  - destruct (folderIteratorContinuationToken cur) as [dtok|]; [|done].
    destruct (continueFolderIterator drive dtok) as [[folder tok]|]; simpl; eauto.
Qed.

(** C6. A call of [listFilesAndFolders] appends at most one row.  It appends
    the row of the file or folder that the call yields exactly when that item
    classifies as "Shared"; for a "Private" item it appends nothing and does
    not throw; a call that yields no item appends nothing. *)
Theorem step_appends_row_iff_shared (drive : Service) (me : string)
    (recursiveIterator : list Iteration) (sheet : Sheet) :
  (listFilesAndFolders drive me recursiveIterator sheet).1 =
    sheet ++ match yielded drive recursiveIterator with
             | Some (kind, node) =>
               if bool_decide (getSharingAccess me node = "Shared")
               then [[Text (folderPath recursiveIterator +:+ getName node);
                      Text kind; Text "Shared"]]
               else []
             | None => []
             end
  /\ match yielded drive recursiveIterator with
     | Some _ => exists recursiveIterator',
         (listFilesAndFolders drive me recursiveIterator sheet).2 = Ok recursiveIterator'
     | None => True
     end
  /\ length (listFilesAndFolders drive me recursiveIterator sheet).1 <= S (length sheet).
Proof.
  split; [apply listFilesAndFolders_sheet|].
  split; [apply listFilesAndFolders_yielded|].
  rewrite listFilesAndFolders_sheet, length_app.
  destruct (yielded drive recursiveIterator) as [[kind node]|]; [|simpl; lia].
  case_bool_decide; simpl; lia.
Qed.

(** C10. A call of [listFilesAndFolders] on a stack that is not empty leaves
    every entry below the last one as it is, and the length of the stack it
    returns is the same when a file iterator is advanced, one more when a
    folder is pushed and one less when the last entry is popped.  The call
    fails only when both tokens of the last entry are [null], and then it
    returns no stack. *)
Theorem step_changes_last_entry_only (drive : Service) (me : string)
    (below : list Iteration) (top : Iteration) (sheet : Sheet) :
  match (listFilesAndFolders drive me (below ++ [top]) sheet).2 with
  | Ok recursiveIterator' =>
    take (length below) recursiveIterator' = below
    /\ match stepKind drive (below ++ [top]) with
       | Some LeafPageAdvance => length recursiveIterator' = length (below ++ [top])
       | Some ChildPageAdvance => length recursiveIterator' = S (length (below ++ [top]))
       | Some PopOperation => S (length recursiveIterator') = length (below ++ [top])
       | None => False
       end
  | Throw e =>
    e = IteratorFailure
    /\ fileIteratorContinuationToken top = None
    /\ folderIteratorContinuationToken top = None
  | OutOfFuel => False
  | OutsideModel => False
  end.
Proof.
  unfold listFilesAndFolders, stepKind. rewrite last_snoc.
  destruct (fileIteratorContinuationToken top) as [ftok|].
  - destruct (continueFileIterator drive ftok) as [[file tok]|]; simpl;
      rewrite setLast_snoc, take_app_length, !length_app; done.
  - destruct (folderIteratorContinuationToken top) as [dtok|]; simpl; [|done].
    destruct (continueFolderIterator drive dtok) as [[folder tok]|]; simpl.
    + rewrite setLast_snoc, <- app_assoc, take_app_length, !length_app. simpl.
      split; [done | lia].
    + rewrite pop_snoc, firstn_all, length_app. simpl. split; [done | lia].
Qed.

(** C8. On a stack whose last entry has both continuation tokens [null],
    [listFilesAndFolders] throws and leaves the sheet as it is; the loop of
    [main] does not go on: it ends with this exception, with the user
    properties and the spreadsheet unchanged. *)
Theorem exhausted_entry_throws (drive : Service) (me : string)
    (below : list Iteration) (name : string) (sheet : Sheet)
    (env : Env) (fuel : nat) (startTime : Z) (w : World) :
  let exhausted := {| folderName := name;
                      fileIteratorContinuationToken := None;
                      folderIteratorContinuationToken := None |} in
  listFilesAndFolders drive me (below ++ [exhausted]) sheet = (sheet, Throw IteratorFailure)
  /\ (mainLoop env (S fuel) startTime (below ++ [exhausted]) w).2 = Throw IteratorFailure
  /\ userProperties (mainLoop env (S fuel) startTime (below ++ [exhausted]) w).1
     = userProperties w
  /\ spreadsheet (mainLoop env (S fuel) startTime (below ++ [exhausted]) w).1
     = spreadsheet w.
Proof.
  intros exhausted.
  assert (Hstep : forall d m s, listFilesAndFolders d m (below ++ [exhausted]) s
                                = (s, Throw IteratorFailure)).
  { intros. unfold listFilesAndFolders. by rewrite last_snoc. }
  split; [apply Hstep|].
  assert (Hloop : mainLoop env (S fuel) startTime (below ++ [exhausted]) w
                  = (setSpreadsheet (spreadsheet w) w, Throw IteratorFailure)).
  { destruct (below ++ [exhausted]) eqn:E; [by destruct below|].
    simpl. unfold bind, step. rewrite Hstep. by destruct (spreadsheet w). }
  rewrite Hloop. done.
Qed.

(** ** Whole traversals of a finite tree *)

Lemma Tree_ind_nested (P : Tree -> Prop) :
  (forall it files subfolders, Forall P subfolders -> P (Node it files subfolders)) ->
  forall t, P t.
Proof.
  intros H. fix IH 1. intros [it files subfolders]. apply H.
  induction subfolders as [|s subfolders IHs]; constructor; [apply IH | apply IHs].
Qed.

Lemma shows_Node drive folder it files subfolders :
  shows drive folder (Node it files subfolders) = true ->
  item folder = it
  /\ yieldsFiles drive (getFiles folder) files = true
  /\ yieldsFolders (shows drive) drive (getFolders folder) subfolders = true.
Proof.
  simpl. rewrite !andb_true_iff, bool_decide_eq_true. tauto.
Qed.

Lemma run_add drive me (a b : nat) it sheet :
  run drive me (a + b) it sheet =
  match run drive me a it sheet with
  | (kinds, (sheet', Ok it')) =>
    let (kinds', result) := run drive me b it' sheet' in (kinds ++ kinds', result)
  | failed => failed
  end.
Proof.
  revert it sheet. induction a as [|a IH]; intros it sheet; simpl.
  - by destruct (run drive me b it sheet).
  - destruct (listFilesAndFolders drive me it sheet) as [sheet' [it'| | |]]; try done.
    rewrite IH.
    destruct (run drive me a it' sheet') as [kinds [sheet'' [it''| | |]]]; try done.
    destruct (run drive me b it'' sheet'') as [kinds' result].
    by rewrite app_assoc.
Qed.

(** The four ways a call returns, on a stack given as the entries below and
    the last entry. *)
Lemma step_file drive me below name folders token file token' sheet :
  continueFileIterator drive token = Some (file, token') ->
  listFilesAndFolders drive me (below ++ [entry name (Some token) folders]) sheet =
  (sheet ++ report (String.concat "/" (map folderName below ++ [name])) "File"
              (getSharingAccess me file) file [],
   Ok (below ++ [entry name (Some token') folders])).
Proof.
  intros Hn. unfold listFilesAndFolders. rewrite last_snoc. simpl.
  by rewrite Hn, setLast_snoc, folderPath_snoc, report_app.
Qed.

Lemma step_files_done drive me below name folders token sheet :
  continueFileIterator drive token = None ->
  listFilesAndFolders drive me (below ++ [entry name (Some token) folders]) sheet =
  (sheet, Ok (below ++ [entry name None folders])).
Proof.
  intros Hn. unfold listFilesAndFolders. rewrite last_snoc. simpl.
  by rewrite Hn, setLast_snoc.
Qed.

Lemma step_folder drive me below name token folder token' sheet :
  continueFolderIterator drive token = Some (folder, token') ->
  listFilesAndFolders drive me (below ++ [entry name None (Some token)]) sheet =
  (sheet ++ report (String.concat "/" (map folderName below ++ [name])) "Folder"
              (getSharingAccess me (item folder)) (item folder) [],
   Ok ((below ++ [entry name None (Some token')]) ++ [makeIterationFromFolder folder])).
Proof.
  intros Hn. unfold listFilesAndFolders. rewrite last_snoc. simpl.
  by rewrite Hn, setLast_snoc, folderPath_snoc, report_app.
Qed.

Lemma step_folders_done drive me below name token sheet :
  continueFolderIterator drive token = None ->
  listFilesAndFolders drive me (below ++ [entry name None (Some token)]) sheet =
  (sheet, Ok below).
Proof.
  intros Hn. unfold listFilesAndFolders. rewrite last_snoc. simpl.
  by rewrite Hn, pop_snoc.
Qed.

Lemma stepKind_files drive below name folders token :
  stepKind drive (below ++ [entry name (Some token) folders]) = Some LeafPageAdvance.
Proof. unfold stepKind. by rewrite last_snoc. Qed.

Lemma stepKind_folders drive below name token :
  stepKind drive (below ++ [entry name None (Some token)]) =
  match continueFolderIterator drive token with
  | Some _ => Some ChildPageAdvance
  | None => Some PopOperation
  end.
Proof. unfold stepKind. by rewrite last_snoc. Qed.

Lemma run_S drive me n it sheet :
  run drive me (S n) it sheet =
  match listFilesAndFolders drive me it sheet with
  | (sheet', Ok it') =>
    let (kinds, result) := run drive me n it' sheet' in
    (option_list (stepKind drive it) ++ kinds, result)
  | (sheet', failure) => ([], (sheet', failure))
  end.
Proof. reflexivity. Qed.

(** The files of the last entry: one call per file and one that finds the
    iterator exhausted. *)
Lemma run_files drive me below name folders files :
  forall token sheet,
  yieldsFiles drive token files = true ->
  run drive me (S (length files)) (below ++ [entry name (Some token) folders]) sheet =
  (replicate (S (length files)) LeafPageAdvance,
   (sheet ++ fileRows me (map folderName below ++ [name]) files,
    Ok (below ++ [entry name None folders]))).
Proof.
  induction files as [|file files IH]; intros token sheet Hy; simpl in Hy.
  - destruct (continueFileIterator drive token) eqn:Hn; [done|].
    rewrite run_S, (step_files_done _ _ _ _ _ _ _ Hn), stepKind_files.
    simpl. by rewrite app_nil_r.
  - destruct (continueFileIterator drive token) as [[file' token']|] eqn:Hn; [|done].
    apply andb_true_iff in Hy as [Hf Hy]. apply bool_decide_eq_true in Hf. subst file'.
    cbn [length]. rewrite run_S, (step_file _ _ _ _ _ _ _ _ _ Hn), stepKind_files.
    rewrite (IH token' _ Hy). cbn [fileRows flat_map].
    rewrite <- app_assoc. done.
Qed.

(** The subfolders of the last entry, whose files are exhausted: each is
    pushed and drained in turn, then the entry is popped. *)
Lemma run_folders drive me below name subfolders :
  Forall (fun s => forall folder below sheet,
            shows drive folder s = true ->
            run drive me (length (treeKinds s))
                (below ++ [makeIterationFromFolder folder]) sheet =
            (treeKinds s,
             (sheet ++ treeRows me (map folderName below ++ [getName (rootItem s)]) s,
              Ok below))) subfolders ->
  forall token sheet,
  yieldsFolders (shows drive) drive token subfolders = true ->
  run drive me (length (flat_map (fun s => ChildPageAdvance :: treeKinds s) subfolders) + 1)
      (below ++ [entry name None (Some token)]) sheet =
  (flat_map (fun s => ChildPageAdvance :: treeKinds s) subfolders ++ [PopOperation],
   (sheet ++ flat_map (fun s =>
        report (String.concat "/" (map folderName below ++ [name])) "Folder"
          (getSharingAccess me (rootItem s)) (rootItem s) []
        ++ treeRows me ((map folderName below ++ [name]) ++ [getName (rootItem s)]) s)
        subfolders,
    Ok below)).
Proof.
  induction 1 as [|s subfolders Hs _ IH]; intros token sheet Hy; simpl in Hy.
  - destruct (continueFolderIterator drive token) eqn:Hn; [done|].
    cbn [flat_map length Nat.add].
    rewrite run_S, (step_folders_done _ _ _ _ _ _ Hn), stepKind_folders, Hn.
    simpl. by rewrite app_nil_r.
  - destruct (continueFolderIterator drive token) as [[folder token']|] eqn:Hn; [|done].
    apply andb_true_iff in Hy as [Hf Hy].
    assert (Hitem : item folder = rootItem s).
    { destruct s. by apply shows_Node in Hf as [? _]. }
    cbn [flat_map]. rewrite length_app. cbn [length].
    rewrite <- Nat.add_assoc, Nat.add_succ_l.
    rewrite run_S, (step_folder _ _ _ _ _ _ _ _ Hn), stepKind_folders, Hn.
    rewrite run_add, (Hs folder _ _ Hf), (IH token' _ Hy).
    rewrite map_app, Hitem. cbn [map folderName entry option_list app].
    rewrite <- !app_assoc. done.
Qed.

(** A folder that shows the tree [t], pushed on any stack, is drained in
    [length (treeKinds t)] calls, which append the rows of [t] in the order of
    [treeRows] and give the stack back. *)
Lemma run_tree drive me t :
  forall folder below sheet,
  shows drive folder t = true ->
  run drive me (length (treeKinds t)) (below ++ [makeIterationFromFolder folder]) sheet =
  (treeKinds t,
   (sheet ++ treeRows me (map folderName below ++ [getName (rootItem t)]) t, Ok below)).
Proof.
  induction t as [it files subfolders IH] using Tree_ind_nested.
  intros folder below sheet Hshows.
  apply shows_Node in Hshows as (Hitem & Hfiles & Hfolders).
  cbn [treeKinds treeRows rootItem]. rewrite length_app, length_replicate.
  rewrite run_add.
  change (makeIterationFromFolder folder)
    with (entry (getName (item folder)) (Some (getFiles folder)) (Some (getFolders folder))).
  rewrite (run_files _ _ _ _ _ _ _ _ Hfiles).
  rewrite length_app. cbn [length].
  rewrite (run_folders _ _ _ _ _ IH _ _ Hfolders).
  rewrite Hitem, <- app_assoc. done.
Qed.

(** The stack that a call returns does not depend on the sheet, and the rows
    that [run] appends do not either. *)
Lemma listFilesAndFolders_result drive me it (sheet : Sheet) :
  (listFilesAndFolders drive me it sheet).2 = (listFilesAndFolders drive me it []).2.
Proof.
  unfold listFilesAndFolders.
  repeat match goal with
  | |- context [match ?x with _ => _ end] => destruct x
  end; reflexivity.
Qed.

Lemma run_rows drive me n :
  forall it (sheet : Sheet),
  run drive me n it sheet =
  ((run drive me n it []).1,
   (sheet ++ (run drive me n it []).2.1, (run drive me n it []).2.2)).
Proof.
  induction n as [|n IH]; intros it sheet; [simpl; by rewrite app_nil_r|].
  rewrite !run_S.
  pose proof (listFilesAndFolders_sheet drive me it sheet) as Hsheet.
  pose proof (listFilesAndFolders_sheet drive me it []) as Hnil.
  pose proof (listFilesAndFolders_result drive me it sheet) as Hresult.
  destruct (listFilesAndFolders drive me it sheet) as [sheet1 result1].
  destruct (listFilesAndFolders drive me it []) as [rows result].
  cbn [fst snd] in *. subst result1 sheet1 rows.
  destruct result as [it'| | |]; [|by simpl..].
  rewrite (IH it' (sheet ++ _)), (IH it' ([] ++ _)).
  destruct (run drive me n it' []) as [kinds [rows' result']].
  cbn [fst snd]. by rewrite app_assoc.
Qed.

(** ** The text of the persisted iterator *)

#[local] Arguments String.append : simpl nomatch.

Lemma append_assoc (a b c : string) : (a +:+ b) +:+ c = a +:+ (b +:+ c).
Proof. induction a as [|x a IH]; [done | cbn; by f_equal]. Qed.

Lemma length_append (a b : string) :
  String.length (a +:+ b) = String.length a + String.length b.
Proof. induction a as [|x a IH]; [done | cbn; by f_equal]. Qed.

Lemma stringBody_escapeChar (c : ascii) (tail : string) :
  JSON.stringBody JSON.Plain (JSON.escapeChar c +:+ tail) =
  JSON.prepend (String c "") (JSON.stringBody JSON.Plain tail).
Proof. destruct c as [[] [] [] [] [] [] [] []]; reflexivity. Qed.

(** An escaped string and its closing quote are read back as the string. *)
Lemma stringBody_escape (s tail : string) :
  JSON.stringBody JSON.Plain (JSON.escape s +:+ String JSON.dquote tail) = Some (s, tail).
Proof.
  induction s as [|c s IH]; [reflexivity|].
  cbn [JSON.escape]. rewrite append_assoc, stringBody_escapeChar, IH. reflexivity.
Qed.

Lemma quote_append (s tail : string) :
  JSON.quote s +:+ tail = String JSON.dquote (JSON.escape s +:+ String JSON.dquote tail).
Proof. unfold JSON.quote. simpl. by rewrite append_assoc. Qed.

Lemma parseValue_token (fuel : nat) (token : option string) (tail : string) :
  JSON.parseValue (S fuel) (JSON.stringify (tokenToJSON token) +:+ tail) =
  JSON.Parsed (tokenToJSON token) tail.
Proof.
  destruct token as [s|]; [|by destruct tail].
  cbn [tokenToJSON JSON.stringify]. rewrite quote_append.
  cbn. by rewrite stringBody_escape.
Qed.

Lemma parseValue_string (fuel : nat) (s tail : string) :
  JSON.parseValue (S fuel) (String JSON.dquote (JSON.escape s +:+ String JSON.dquote tail)) =
  JSON.Parsed (JSON.Str s) tail.
Proof. cbn. by rewrite stringBody_escape. Qed.

Lemma parseValue_object (fuel : nat) (text : string) :
  JSON.parseValue (S fuel) (String "{" (String JSON.dquote text)) =
  match JSON.parseMembers fuel (String JSON.dquote text) with
  | JSON.Parsed members rest => JSON.Parsed (JSON.Object members) rest
  | JSON.Invalid => JSON.Invalid
  | JSON.Fuel => JSON.Fuel
  end.
Proof. reflexivity. Qed.

Lemma parseMembers_member (fuel : nat) (key text : string) :
  JSON.parseMembers (S fuel)
    (String JSON.dquote (JSON.escape key +:+ String JSON.dquote (String ":" text))) =
  match JSON.parseValue fuel text with
  | JSON.Parsed v r3 =>
    match JSON.skipWhitespace r3 with
    | String c3 r4 =>
      if (c3 =? ",")%char then
        match JSON.parseMembers fuel r4 with
        | JSON.Parsed ms rest => JSON.Parsed ((key, v) :: ms) rest
        | JSON.Invalid => JSON.Invalid
        | JSON.Fuel => JSON.Fuel
        end
      else if (c3 =? "}")%char then JSON.Parsed [(key, v)] r4
      else JSON.Invalid
    | EmptyString => JSON.Invalid
    end
  | JSON.Invalid => JSON.Invalid
  | JSON.Fuel => JSON.Fuel
  end.
Proof. cbn. by rewrite stringBody_escape. Qed.

(** The text of one entry; see [iterationToJSON]. *)
Lemma parseValue_entry (fuel : nat) (iteration : Iteration) (tail : string) :
  JSON.parseValue (5 + fuel) (JSON.stringify (iterationToJSON iteration) +:+ tail) =
  JSON.Parsed (iterationToJSON iteration) tail.
Proof.
  unfold iterationToJSON.
  cbn [JSON.stringify map String.concat fst snd].
  rewrite !append_assoc, !quote_append.
  change (5 + fuel) with (S (S (S (S (S fuel))))).
  cbn -[JSON.parseValue JSON.parseMembers JSON.stringBody JSON.escape tokenToJSON].
  rewrite parseValue_object, parseMembers_member, parseValue_string.
  cbn -[JSON.parseValue JSON.parseMembers JSON.stringBody JSON.escape tokenToJSON].
  rewrite parseMembers_member, parseValue_token.
  cbn -[JSON.parseValue JSON.parseMembers JSON.stringBody JSON.escape tokenToJSON].
  rewrite parseMembers_member, parseValue_token.
  reflexivity.
Qed.

Lemma parseElements_S (fuel : nat) (s : string) :
  JSON.parseElements (S fuel) s =
  match JSON.parseValue fuel s with
  | JSON.Parsed v r =>
    match JSON.skipWhitespace r with
    | String c r' =>
      if (c =? ",")%char then
        match JSON.parseElements fuel r' with
        | JSON.Parsed vs rest => JSON.Parsed (v :: vs) rest
        | JSON.Invalid => JSON.Invalid
        | JSON.Fuel => JSON.Fuel
        end
      else if (c =? "]")%char then JSON.Parsed [v] r'
      else JSON.Invalid
    | EmptyString => JSON.Invalid
    end
  | JSON.Invalid => JSON.Invalid
  | JSON.Fuel => JSON.Fuel
  end.
Proof. reflexivity. Qed.

Lemma skipWhitespace_comma (s : string) :
  JSON.skipWhitespace (String "," s) = String "," s.
Proof. reflexivity. Qed.

Lemma concat_cons (sep a b : string) (l : list string) :
  String.concat sep (a :: b :: l) = a +:+ sep +:+ String.concat sep (b :: l).
Proof. reflexivity. Qed.

Lemma parseElements_entries (others : list Iteration) :
  forall (iteration : Iteration) (fuel : nat) (tail : string),
  JSON.parseElements (6 + length others + fuel)
    (String.concat "," (map JSON.stringify (map iterationToJSON (iteration :: others)))
     +:+ String "]" tail) =
  JSON.Parsed (map iterationToJSON (iteration :: others)) tail.
Proof.
  induction others as [|next others IH]; intros iteration fuel tail.
  - change (6 + length [] + fuel) with (S (5 + fuel)).
    rewrite parseElements_S. cbn [map String.concat].
    rewrite parseValue_entry. reflexivity.
  - change (6 + length (next :: others) + fuel)
      with (S (5 + S (length others + fuel))).
    rewrite parseElements_S. cbn [map]. rewrite concat_cons, !append_assoc.
    rewrite parseValue_entry.
    change (5 + S (length others + fuel)) with (6 + length others + fuel).
    change ("," +:+ ?x) with (String "," x).
    rewrite skipWhitespace_comma. change ("," =? ",")%char with true. cbv iota.
    specialize (IH next fuel tail). cbn [map] in IH. rewrite IH. reflexivity.
Qed.

Lemma length_stringify_entry (iteration : Iteration) :
  1 <= String.length (JSON.stringify (iterationToJSON iteration)).
Proof.
  unfold iterationToJSON. cbn [JSON.stringify].
  change ("{" +:+ ?x) with (String "{" x). cbn [String.length]. lia.
Qed.

Lemma length_stringify_entries (recursiveIterator : list Iteration) :
  length recursiveIterator <=
  String.length (String.concat ","
                   (map JSON.stringify (map iterationToJSON recursiveIterator))).
Proof.
  induction recursiveIterator as [|iteration [|next others] IH]; [done| |].
  - apply length_stringify_entry.
  - cbn [map] in *. rewrite concat_cons, !length_append.
    pose proof (length_stringify_entry iteration). cbn [length] in *. lia.
Qed.

Lemma stringify_entries_head (iteration : Iteration) (others : list Iteration) :
  exists text,
    String.concat "," (map JSON.stringify (map iterationToJSON (iteration :: others)))
    = String "{" text.
Proof.
  destruct others as [|next others]; cbn [map]; [|rewrite concat_cons];
    unfold iterationToJSON at 1; cbn [JSON.stringify String.concat];
    change ("{" +:+ ?x) with (String "{" x); eexists; reflexivity.
Qed.

(** [JSON.parse(JSON.stringify(recursiveIterator))] has every entry of
    [recursiveIterator], with its name and its two tokens, [null] included, in
    the same order. *)
Lemma parse_stringify_iterator (recursiveIterator : list Iteration) :
  JSON.parse (JSON.stringify (iteratorToJSON recursiveIterator)) =
  Ok (iteratorToJSON recursiveIterator).
Proof.
  unfold JSON.parse, iteratorToJSON.
  destruct recursiveIterator as [|iteration others]; [reflexivity|].
  cbn [JSON.stringify].
  pose proof (length_stringify_entries (iteration :: others)) as Hlen.
  destruct (stringify_entries_head iteration others) as [text Htext].
  set (entries := String.concat "," _) in *.
  change ("[" +:+ ?x) with (String "[" x). cbn [String.length].
  rewrite length_append. change (String.length "]") with 1.
  assert (Hfuel : forall n, S (length others) <= n ->
            exists fuel, 2 * S (n + 1) + 2 = S (6 + length others + fuel)).
  { intros n Hn. exists (2 * S (n + 1) + 2 - S (6 + length others)). lia. }
  destruct (Hfuel _ Hlen) as [fuel ->].
  assert (Harray : forall text tail,
    JSON.parseValue (S (6 + length others + fuel)) (String "[" (String "{" text +:+ tail)) =
    match JSON.parseElements (6 + length others + fuel) (String "{" text +:+ tail) with
    | JSON.Parsed elements rest => JSON.Parsed (JSON.Array elements) rest
    | JSON.Invalid => JSON.Invalid
    | JSON.Fuel => JSON.Fuel
    end) by reflexivity.
  rewrite Htext, Harray, <- Htext. subst entries.
  rewrite (parseElements_entries others iteration fuel ""). reflexivity.
Qed.

Lemma iterationOfJSON_iterationToJSON (iteration : Iteration) :
  iterationOfJSON (iterationToJSON iteration) = Some iteration.
Proof.
  destruct iteration as [name [files|] [folders|]]; reflexivity.
Qed.

Lemma iteratorOfJSON_iteratorToJSON (recursiveIterator : list Iteration) :
  iteratorOfJSON (map iterationToJSON recursiveIterator) = Some recursiveIterator.
Proof.
  unfold iteratorOfJSON. induction recursiveIterator as [|iteration others IH]; [done|].
  cbn [map mapM]. rewrite iterationOfJSON_iterationToJSON, IH. reflexivity.
Qed.

(** ** [JSON.parse] returns a value or throws *)

Lemma length_skipWhitespace (s : string) :
  String.length (JSON.skipWhitespace s) <= String.length s.
Proof.
  induction s as [|c s IH]; [done|]. cbn [JSON.skipWhitespace].
  destruct (JSON.isWhitespace c); cbn [String.length]; lia.
Qed.

Lemma length_dropString (n : nat) (s : string) :
  String.length (dropString n s) <= String.length s.
Proof.
  revert s. induction n as [|n IH]; intros [|c s]; cbn [dropString String.length]; try lia.
  specialize (IH s). lia.
Qed.

Lemma length_stringBody (s : string) :
  forall st str rest,
  JSON.stringBody st s = Some (str, rest) -> String.length rest < String.length s.
Proof.
  induction s as [|c s IH]; intros st str rest H; [done|].
  assert (Hpre : forall p st', JSON.prepend p (JSON.stringBody st' s) = Some (str, rest) ->
                   String.length rest < String.length s).
  { intros p st' Hp. destruct (JSON.stringBody st' s) as [[str' rest']|] eqn:Hs; [|done].
    injection Hp as _ <-. by eapply IH. }
  cbn [JSON.stringBody String.length] in *.
  destruct st as [| |digits].
  - destruct (c =? JSON.dquote)%char; [injection H as _ <-; lia|].
    destruct (c =? JSON.backslash)%char; [apply IH in H; lia|].
    destruct (_ <? _)%N; [done|]. apply Hpre in H. lia.
  - destruct (c =? "u")%char; [apply IH in H; lia|].
    destruct (JSON.unescape c); [|done]. apply Hpre in H. lia.
  - destruct (JSON.hexValue c); [|done]. cbv zeta in H.
    destruct (_ =? _)%nat; [apply Hpre in H | apply IH in H]; lia.
Qed.

Lemma length_digits (s : string) :
  String.length (JSON.digits s).2 <= String.length s.
Proof.
  induction s as [|c s IH]; [done|]. cbn [JSON.digits].
  destruct (JSON.isDigit c); [|done].
  destruct (JSON.digits s) as [ds rest]. cbn [snd String.length] in *. lia.
Qed.

Lemma length_number (s lexeme rest : string) :
  JSON.number s = Some (lexeme, rest) -> String.length rest < String.length s.
Proof.
  unfold JSON.number. intros H.
  repeat match type of H with
  | _ => progress cbn [String.eqb] in H
  | context [JSON.digits ?x] =>
    let Hd := fresh "Hd" in
    pose proof (length_digits x) as Hd;
    destruct (JSON.digits x) as [? ?]; cbn [snd] in Hd
  | context [match ?x with EmptyString => _ | String _ _ => _ end] =>
    destruct x; cbn [String.length] in *
  | context [if ?b then _ else _] => destruct b
  | (let (_, _) := (_, _) in _) = _ => cbv iota beta in H
  | match ?x with Some _ => _ | None => _ end = _ => cbv iota beta in H
  end; try discriminate H; try (injection H as _ <-; cbn [String.length] in *; lia).
Qed.

(** A scrutinee of [t] that has no [match] in it. *)
Ltac scrutinee t :=
  match t with
  | context [match ?x with _ => _ end] =>
    match x with
    | context [match ?y with _ => _ end] => scrutinee x
    | _ => x
    end
  end.

(** Case analysis on every [match] of a hypothesis, the innermost first. *)
Ltac break_matches H :=
  repeat (let T := type of H in
          let x := scrutinee T in
          let E := fresh "E" in
          destruct x eqn:E).

(** What the equations left by [break_matches] say about lengths. *)
Ltac length_facts IHv IHe IHm :=
  repeat match goal with
  | E : JSON.skipWhitespace ?a = _ |- _ =>
    let L := fresh "L" in
    pose proof (length_skipWhitespace a) as L; rewrite E in L; clear E
  | E : JSON.stringBody _ _ = Some _ |- _ => apply length_stringBody in E
  | E : JSON.number _ = Some _ |- _ => apply length_number in E
  | E : JSON.parseValue _ _ = JSON.Parsed _ _ |- _ => apply IHv in E
  | E : JSON.parseElements _ _ = JSON.Parsed _ _ |- _ => apply IHe in E
  | E : JSON.parseMembers _ _ = JSON.Parsed _ _ |- _ => apply IHm in E
  end.

Lemma length_literal (w : string) (v v' : JSON.value) (c : ascii) (r rest : string) :
  JSON.literal (String c w) v (String c r) = JSON.Parsed v' rest ->
  String.length rest <= String.length r.
Proof.
  unfold JSON.literal. destruct (String.prefix _ _); [|done].
  intros H. injection H as _ <-. cbn [String.length dropString].
  apply length_dropString.
Qed.

(** A value that is parsed takes at least one character. *)
Lemma parse_consumes (fuel : nat) :
  (forall s v rest, JSON.parseValue fuel s = JSON.Parsed v rest ->
     String.length rest < String.length s)
  /\ (forall s vs rest, JSON.parseElements fuel s = JSON.Parsed vs rest ->
        String.length rest < String.length s)
  /\ (forall s ms rest, JSON.parseMembers fuel s = JSON.Parsed ms rest ->
        String.length rest < String.length s).
Proof.
  induction fuel as [|fuel (IHv & IHe & IHm)]; [by repeat split|].
  split; [|split]; intros s x rest H.
  - cbn [JSON.parseValue] in H.
    destruct (JSON.skipWhitespace s) as [|c r] eqn:Es; [done|].
    pose proof (length_skipWhitespace s) as Ls. rewrite Es in Ls. cbn [String.length] in Ls.
    destruct (c =? "{")%char.
    { break_matches H; try discriminate H; injection H as _ <-;
        length_facts IHv IHe IHm; cbn [String.length] in *; lia. }
    destruct (c =? "[")%char.
    { break_matches H; try discriminate H; injection H as _ <-;
        length_facts IHv IHe IHm; cbn [String.length] in *; lia. }
    destruct (c =? JSON.dquote)%char.
    { break_matches H; try discriminate H; injection H as _ <-;
        length_facts IHv IHe IHm; cbn [String.length] in *; lia. }
    destruct (Ascii.eqb_spec c "n") as [->|_]; [apply length_literal in H; lia|].
    destruct (Ascii.eqb_spec c "t") as [->|_]; [apply length_literal in H; lia|].
    destruct (Ascii.eqb_spec c "f") as [->|_]; [apply length_literal in H; lia|].
    break_matches H; try discriminate H; injection H as _ <-.
    length_facts IHv IHe IHm. cbn [String.length] in *. lia.
  - cbn [JSON.parseElements] in H.
    break_matches H; try discriminate H; injection H as _ <-;
      length_facts IHv IHe IHm; cbn [String.length] in *; lia.
  - cbn [JSON.parseMembers] in H.
    break_matches H; try discriminate H; injection H as _ <-;
      length_facts IHv IHe IHm; cbn [String.length] in *; lia.
Qed.

(** The fuel of [JSON.parse] is enough for a text of its length. *)
Lemma parse_fuel (fuel : nat) :
  (forall s, 2 * String.length s + 2 <= fuel -> JSON.parseValue fuel s <> JSON.Fuel)
  /\ (forall s, 2 * String.length s + 3 <= fuel -> JSON.parseElements fuel s <> JSON.Fuel)
  /\ (forall s, 2 * String.length s + 1 <= fuel -> JSON.parseMembers fuel s <> JSON.Fuel).
Proof.
  induction fuel as [|fuel (IHv & IHe & IHm)]; [repeat split; intros; lia|].
  destruct (parse_consumes fuel) as (Cv & Ce & Cm).
  split; [|split]; intros s Hs H.
  - cbn [JSON.parseValue] in H.
    destruct (JSON.skipWhitespace s) as [|c r] eqn:Es; [done|].
    pose proof (length_skipWhitespace s) as Ls. rewrite Es in Ls. cbn [String.length] in Ls.
    unfold JSON.literal in H.
    break_matches H; try discriminate H;
      match goal with
      | E : JSON.parseMembers fuel ?a = JSON.Fuel |- _ => apply (IHm a); [|exact E]
      | E : JSON.parseElements fuel ?a = JSON.Fuel |- _ => apply (IHe a); [|exact E]
      end; lia.
  - cbn [JSON.parseElements] in H.
    break_matches H; try discriminate H;
      match goal with
      | E : JSON.parseElements fuel ?a = JSON.Fuel |- _ => apply (IHe a); [|exact E]
      | E : JSON.parseValue fuel ?a = JSON.Fuel |- _ => apply (IHv a); [|exact E]
      end; length_facts Cv Ce Cm; cbn [String.length] in *; lia.
  - cbn [JSON.parseMembers] in H.
    break_matches H; try discriminate H;
      match goal with
      | E : JSON.parseMembers fuel ?a = JSON.Fuel |- _ => apply (IHm a); [|exact E]
      | E : JSON.parseValue fuel ?a = JSON.Fuel |- _ => apply (IHv a); [|exact E]
      end; length_facts Cv Ce Cm; cbn [String.length] in *; lia.
Qed.

(** [JSON.parse] returns a value or throws [SyntaxError]. *)
Lemma parse_total (text : string) :
  (exists v, JSON.parse text = Ok v) \/ JSON.parse text = Throw SyntaxError.
Proof.
  unfold JSON.parse.
  destruct (JSON.parseValue _ text) as [v rest| |] eqn:E.
  - destruct (JSON.skipWhitespace rest); eauto.
  - by right.
  - by apply (proj1 (parse_fuel _)) in E.
Qed.

Lemma run_nonempty drive me n it sheet kinds sheet' it' :
  run drive me n it sheet = (kinds, (sheet', Ok it')) ->
  forall k, k < n ->
  exists kinds_k sheet_k x rest,
    run drive me k it sheet = (kinds_k, (sheet_k, Ok (x :: rest))).
Proof.
  intros Hrun k Hk. replace n with (k + S (n - k - 1)) in Hrun by lia.
  rewrite run_add in Hrun.
  destruct (run drive me k it sheet) as [kinds_k [sheet_k [[|x rest]| | |]]]; try done.
  eauto.
Qed.

Lemma countKind_app kind (a b : list StepKind) :
  countKind kind (a ++ b) = countKind kind a + countKind kind b.
Proof. unfold countKind. by rewrite filter_app, length_app. Qed.

Lemma countKind_replicate kind kind' n :
  countKind kind (replicate n kind') = if bool_decide (kind' = kind) then n else 0.
Proof.
  unfold countKind. induction n as [|n IH]; simpl; [by case_bool_decide|].
  rewrite filter_cons. case_bool_decide; case_decide; simpl; try done; lia.
Qed.

Lemma countKind_cons kind kind' (kinds : list StepKind) :
  countKind kind (kind' :: kinds) =
  (if bool_decide (kind' = kind) then 1 else 0) + countKind kind kinds.
Proof.
  unfold countKind. rewrite filter_cons. case_bool_decide; case_decide; simpl; done.
Qed.

(** The calls of a whole traversal, counted by kind. *)
Lemma countKind_treeKinds (t : Tree) :
  countKind LeafPageAdvance (treeKinds t) = countFiles t + countFolders t
  /\ S (countKind ChildPageAdvance (treeKinds t)) = countFolders t
  /\ countKind PopOperation (treeKinds t) = countFolders t.
Proof.
  induction t as [it files subfolders IH] using Tree_ind_nested.
  cbn [treeKinds countFiles countFolders].
  rewrite !countKind_app, !countKind_replicate, !countKind_cons.
  assert (Hsub :
    countKind LeafPageAdvance (flat_map (fun s => ChildPageAdvance :: treeKinds s) subfolders)
    = sum_list (map countFiles subfolders) + sum_list (map countFolders subfolders)
    /\ countKind ChildPageAdvance
         (flat_map (fun s => ChildPageAdvance :: treeKinds s) subfolders)
       = sum_list (map countFolders subfolders)
    /\ countKind PopOperation
         (flat_map (fun s => ChildPageAdvance :: treeKinds s) subfolders)
       = sum_list (map countFolders subfolders)).
  { induction IH as [|s subfolders (Hl & Hc & Hp) _ (IHl & IHc & IHp)]; [done|].
    cbn [flat_map map sum_list]. rewrite !countKind_app, !countKind_cons.
    rewrite IHl, IHc, IHp, Hl, Hp. simpl. lia. }
  destruct Hsub as (-> & -> & ->). change (countKind _ []) with 0. simpl. lia.
Qed.

(** ** The sheet *)

Lemma getValue_setValue (cell : nat * nat) (v : Cell) (sheet : Sheet) :
  getValue cell (setValue cell v sheet) = v.
Proof.
  destruct cell as [r c]. unfold getValue, setValue. cbn [fst snd].
  set (sheet1 := sheet ++ replicate (S r - length sheet) []).
  assert (Hr : r < length sheet1).
  { subst sheet1. rewrite length_app, length_replicate. lia. }
  set (row := default [] (sheet1 !! r)).
  set (row1 := row ++ replicate (S c - length row) (Text "")).
  assert (Hc : c < length row1).
  { subst row1. rewrite length_app, length_replicate. lia. }
  rewrite list_lookup_insert_eq by done. simpl.
  rewrite list_lookup_insert_eq by done. done.
Qed.

Lemma drop_setValue (k : nat) (cell : nat * nat) (v : Cell) (sheet : Sheet) :
  cell.1 < k -> drop k (setValue cell v sheet) = drop k sheet.
Proof.
  destruct cell as [r c]. cbn [fst]. intros Hk. unfold setValue. cbn [fst snd].
  rewrite drop_insert_lt by done.
  destruct (decide (r < length sheet)) as [Hr|Hr].
  - replace (S r - length sheet) with 0 by lia. simpl. by rewrite app_nil_r.
  - rewrite !drop_ge; [done | lia |]. rewrite length_app, length_replicate. lia.
Qed.

(** ** The loop of [main] *)

Lemma prettyPrintUserProperties_world (w : World) :
  (prettyPrintUserProperties w).1 = w.
Proof.
  unfold prettyPrintUserProperties.
  by destruct (JSON.parse _).
Qed.

Lemma listFilesAndFolders_nil drive me sheet :
  listFilesAndFolders drive me [] sheet = (sheet, Throw TypeError).
Proof. reflexivity. Qed.

Lemma mainLoop_nil (env : Env) (fuel : nat) (startTime : Z) (w : World) :
  mainLoop env fuel startTime [] w =
  ({| userProperties := delete RECURSIVE_ITERATOR_KEY (userProperties w);
      reportFile :=
        Some {| activeSheet :=
                  setValue REPORT_SPREADSHEET_CELL_ITERATION_FINISHED (Text "yes")
                    (activeSheet (spreadsheet w));
                otherSheets := otherSheets (spreadsheet w) |};
      dateReads := dateReads w |}, Ok tt).
Proof. destruct fuel; reflexivity. Qed.

(** One turn of the loop. *)
Lemma mainLoop_turn (env : Env) (fuel : nat) (startTime : Z)
    (x : Iteration) (rest : list Iteration) (w : World) sheet' it' :
  listFilesAndFolders (drive env) (getEmail (effectiveUser env)) (x :: rest)
    (activeSheet (spreadsheet w)) = (sheet', Ok it') ->
  mainLoop env (S fuel) startTime (x :: rest) w =
  let w' := {| userProperties := userProperties w;
               reportFile := Some {| activeSheet := sheet';
                                     otherSheets := otherSheets (spreadsheet w) |};
               dateReads := S (dateReads w) |} in
  if (MAX_EXECUTION_TIME_IN_MS env <=? clock env (dateReads w) - startTime)%Z
  then prettyPrintUserProperties
         {| userProperties :=
              <[RECURSIVE_ITERATOR_KEY := JSON.stringify (iteratorToJSON it')]>
                (userProperties w);
            reportFile :=
              Some {| activeSheet :=
                        setValue REPORT_SPREADSHEET_CELL_ITERATION_FINISHED (Text "no") sheet';
                      otherSheets := otherSheets (spreadsheet w) |};
            dateReads := S (dateReads w) |}
  else mainLoop env fuel startTime it' w'.
Proof.
  intros Hstep. cbn [mainLoop]. unfold bind at 1. unfold step. rewrite Hstep.
  unfold bind at 1. cbn [newDate setSpreadsheet userProperties reportFile dateReads].
  destruct (_ <=? _)%Z; reflexivity.
Qed.

(** The loop when the stack gets empty at the [n]-th call and the time
    limit is not reached at any of them. *)
Lemma mainLoop_finishes (env : Env) (n : nat) :
  forall (it : list Iteration) (w : World) (fuel : nat) (startTime : Z) kinds sheet',
  run (drive env) (getEmail (effectiveUser env)) n it (activeSheet (spreadsheet w))
    = (kinds, (sheet', Ok [])) ->
  (forall k, k < n ->
     (clock env (dateReads w + k) - startTime < MAX_EXECUTION_TIME_IN_MS env)%Z) ->
  n <= fuel ->
  mainLoop env fuel startTime it w =
  ({| userProperties := delete RECURSIVE_ITERATOR_KEY (userProperties w);
      reportFile :=
        Some {| activeSheet :=
                  setValue REPORT_SPREADSHEET_CELL_ITERATION_FINISHED (Text "yes") sheet';
                otherSheets := otherSheets (spreadsheet w) |};
      dateReads := dateReads w + n |}, Ok tt).
Proof.
  induction n as [|n IH]; intros it w fuel startTime kinds sheet' Hrun Hclock Hfuel.
  - simpl in Hrun. injection Hrun as _ <- ->. rewrite mainLoop_nil, Nat.add_0_r. done.
  - rewrite run_S in Hrun.
    destruct it as [|x rest]; [by rewrite listFilesAndFolders_nil in Hrun|].
    destruct (listFilesAndFolders _ _ _ _) as [sheet1 [it1| | |]] eqn:Hstep; try done.
    destruct (run _ _ n it1 sheet1) as [kinds1 result1] eqn:Hrun1.
    injection Hrun as _ ->.
    destruct fuel as [|fuel]; [lia|].
    rewrite (mainLoop_turn _ _ _ _ _ _ _ _ Hstep). cbv zeta.
    pose proof (Hclock 0 ltac:(lia)) as H0. rewrite Nat.add_0_r in H0.
    destruct (Z.leb_spec (MAX_EXECUTION_TIME_IN_MS env)
                (clock env (dateReads w) - startTime)) as [?|_]; [lia|].
    rewrite (IH it1 _ fuel startTime kinds1 sheet'); cbn [spreadsheet reportFile default
      activeSheet otherSheets userProperties dateReads].
    + do 2 f_equal. lia.
    + done.
    + intros k Hk. specialize (Hclock (S k) ltac:(lia)).
      by replace (S (dateReads w) + k) with (dateReads w + S k) by lia.
    + lia.
Qed.

(** The loop when the time limit is reached at the call after [n] calls at
    which it is not. *)
Lemma mainLoop_suspends (env : Env) (n : nat) :
  forall (it : list Iteration) (w : World) (fuel : nat) (startTime : Z) kinds sheet' it',
  run (drive env) (getEmail (effectiveUser env)) (S n) it (activeSheet (spreadsheet w))
    = (kinds, (sheet', Ok it')) ->
  (forall k, k < n ->
     (clock env (dateReads w + k) - startTime < MAX_EXECUTION_TIME_IN_MS env)%Z) ->
  (MAX_EXECUTION_TIME_IN_MS env <= clock env (dateReads w + n) - startTime)%Z ->
  n < fuel ->
  mainLoop env fuel startTime it w =
  prettyPrintUserProperties
    {| userProperties :=
         <[RECURSIVE_ITERATOR_KEY := JSON.stringify (iteratorToJSON it')]> (userProperties w);
       reportFile :=
         Some {| activeSheet :=
                   setValue REPORT_SPREADSHEET_CELL_ITERATION_FINISHED (Text "no") sheet';
                 otherSheets := otherSheets (spreadsheet w) |};
       dateReads := dateReads w + S n |}.
Proof.
  induction n as [|n IH];
    intros it w fuel startTime kinds sheet' it' Hrun Hclock Hlimit Hfuel.
  - rewrite run_S in Hrun.
    destruct it as [|x rest]; [by rewrite listFilesAndFolders_nil in Hrun|].
    destruct (listFilesAndFolders _ _ _ _) as [sheet1 [it1| | |]] eqn:Hstep; try done.
    simpl in Hrun. injection Hrun as _ -> ->.
    destruct fuel as [|fuel]; [lia|].
    rewrite (mainLoop_turn _ _ _ _ _ _ _ _ Hstep). cbv zeta.
    rewrite Nat.add_0_r in Hlimit.
    destruct (Z.leb_spec (MAX_EXECUTION_TIME_IN_MS env)
                (clock env (dateReads w) - startTime)) as [_|?]; [|lia].
    by rewrite Nat.add_1_r.
  - rewrite run_S in Hrun.
    destruct it as [|x rest]; [by rewrite listFilesAndFolders_nil in Hrun|].
    destruct (listFilesAndFolders _ _ _ _) as [sheet1 [it1| | |]] eqn:Hstep; try done.
    destruct (run _ _ (S n) it1 sheet1) as [kinds1 result1] eqn:Hrun1.
    injection Hrun as _ ->.
    destruct fuel as [|fuel]; [lia|].
    rewrite (mainLoop_turn _ _ _ _ _ _ _ _ Hstep). cbv zeta.
    pose proof (Hclock 0 ltac:(lia)) as H0. rewrite Nat.add_0_r in H0.
    destruct (Z.leb_spec (MAX_EXECUTION_TIME_IN_MS env)
                (clock env (dateReads w) - startTime)) as [?|_]; [lia|].
    rewrite (IH it1 _ fuel startTime kinds1 sheet' it'); cbn [spreadsheet reportFile default
      activeSheet otherSheets userProperties dateReads].
    + do 2 f_equal. lia.
    + done.
    + intros k Hk. specialize (Hclock (S k) ltac:(lia)).
      by replace (S (dateReads w) + k) with (dateReads w + S k) by lia.
    + by replace (S (dateReads w) + n) with (dateReads w + S n) by lia.
    + lia.
Qed.

Lemma getValue_setValue_other_row (cell cell' : nat * nat) (v : Cell) (sheet : Sheet) :
  cell.1 <> cell'.1 -> getValue cell' (setValue cell v sheet) = getValue cell' sheet.
Proof.
  destruct cell as [r c], cell' as [r' c']. cbn [fst]. intros Hne.
  unfold getValue, setValue. cbn [fst snd].
  rewrite list_lookup_insert_ne by done.
  destruct (decide (r' < length sheet)) as [Hr|Hr].
  - by rewrite lookup_app_l.
  - rewrite lookup_app_r by lia. rewrite (lookup_ge_None_2 sheet) by lia.
    destruct (replicate _ _ !! _) as [row|] eqn:Hrow; [|done].
    apply lookup_replicate in Hrow as [-> _]. done.
Qed.

(** ** The start of an iteration *)

Lemma createNewSheet_eq (env : Env) (w : World) :
  createNewSheet env w =
  ({| userProperties := userProperties w;
      reportFile :=
        Some {| activeSheet := newSheet env (clock env (dateReads w));
                otherSheets := activeSheet (spreadsheet w) :: otherSheets (spreadsheet w) |};
      dateReads := S (dateReads w) |}, Ok tt).
Proof. reflexivity. Qed.

Lemma updateSheet_eq (env : Env) (w : World) :
  updateSheet env w =
  (let sheet1 := setValue REPORT_SPREADSHEET_CELL_LAST_RUN
                   (Text (toLocaleString env (clock env (dateReads w))))
                   (activeSheet (spreadsheet w)) in
   let sheet2 := setValue REPORT_SPREADSHEET_CELL_ITERATIONS
                   (plusOne (getValue REPORT_SPREADSHEET_CELL_ITERATIONS sheet1)) sheet1 in
   {| userProperties := userProperties w;
      reportFile :=
        Some {| activeSheet :=
                  setValue REPORT_SPREADSHEET_CELL_ITERATION_FINISHED (Text "running") sheet2;
                otherSheets := otherSheets (spreadsheet w) |};
      dateReads := S (dateReads w) |}, Ok tt).
Proof. reflexivity. Qed.


Lemma continuesSheet_updateSheet (env : Env) (w : World) (it : list Iteration) :
  continuesSheet w it (bind (updateSheet env) (fun _ => ret it) w).
Proof.
  unfold bind. rewrite updateSheet_eq. cbv zeta.
  unfold continuesSheet, ret.
  cbn -[setValue getValue drop plusOne].
  repeat split.
  - by rewrite !drop_setValue by (cbn; lia).
  - rewrite getValue_setValue_other_row by done.
    rewrite getValue_setValue.
    by rewrite getValue_setValue_other_row by done.
  - by rewrite getValue_setValue.
Qed.

Lemma prepareIteration_eq (env : Env) (w : World) :
  prepareIteration env w =
  match JSON.parse (default "null" (userProperties w !! RECURSIVE_ITERATOR_KEY)) with
  | Ok v =>
    if FORCE_NEW_ITERATION env then startFromRoot env w
    else if negb (START_FOLDER_PATH env =? "")%string then
      match getFolderByPath env (START_FOLDER_PATH env) with
      | Some folder =>
        bind (createNewSheet env) (fun _ => ret [makeIterationFromFolder folder]) w
      | None => (w, Throw TypeError)
      end
    else
      match v with
      | JSON.Null => startFromRoot env w
      | JSON.Array elements =>
        match iteratorOfJSON elements with
        | Some recursiveIterator => bind (updateSheet env) (fun _ => ret recursiveIterator) w
        | None => (w, OutsideModel)
        end
      | _ => (w, Throw TypeError)
      end
  | Throw e => (w, Throw e)
  | OutOfFuel => (w, OutOfFuel)
  | OutsideModel => (w, OutsideModel)
  end.
Proof.
  unfold prepareIteration. unfold bind at 1. unfold getProperty at 1. cbv iota beta.
  unfold bind at 1.
  destruct (JSON.parse _) as [v|e| |]; try reflexivity.
  destruct (FORCE_NEW_ITERATION env); [reflexivity|].
  destruct (negb _); [by destruct (getFolderByPath env _)|].
  destruct v as [|b|lexeme|s|elements|members]; try reflexivity.
  by destruct (iteratorOfJSON elements).
Qed.

(** With no forced new iteration and no start folder, the iterator that an
    execution has persisted is the one that the next execution resumes. *)
Lemma prepareIteration_resumes (env : Env) (w : World) (recursiveIterator : list Iteration) :
  FORCE_NEW_ITERATION env = false ->
  START_FOLDER_PATH env = "" ->
  userProperties w !! RECURSIVE_ITERATOR_KEY
    = Some (JSON.stringify (iteratorToJSON recursiveIterator)) ->
  continuesSheet w recursiveIterator (prepareIteration env w).
Proof.
  intros Hforce Hpath Hstored.
  rewrite prepareIteration_eq, Hstored, Hforce, Hpath.
  cbn [default from_option id]. rewrite parse_stringify_iterator.
  cbn [negb String.eqb iteratorToJSON]. rewrite iteratorOfJSON_iteratorToJSON.
  apply continuesSheet_updateSheet.
Qed.

(** So the loop of the next execution starts from the stack with which the
    loop of the last one ended. *)
Lemma resume_continues (env : Env) (w : World) (recursiveIterator : list Iteration)
    (fuel : nat) (startTime : Z) :
  FORCE_NEW_ITERATION env = false ->
  START_FOLDER_PATH env = "" ->
  userProperties w !! RECURSIVE_ITERATOR_KEY
    = Some (JSON.stringify (iteratorToJSON recursiveIterator)) ->
  bind (prepareIteration env) (mainLoop env fuel startTime) w =
  mainLoop env fuel startTime recursiveIterator (updateSheet env w).1.
Proof.
  intros Hforce Hpath Hstored.
  unfold bind at 1. rewrite prepareIteration_eq, Hstored, Hforce, Hpath.
  cbn [default from_option id]. rewrite parse_stringify_iterator.
  cbn [negb String.eqb iteratorToJSON]. rewrite iteratorOfJSON_iteratorToJSON.
  unfold bind at 1. rewrite updateSheet_eq. reflexivity.
Qed.


(** ** Whole traversals: order and number of calls *)

Lemma length_countKind (kinds : list StepKind) :
  length kinds =
  countKind LeafPageAdvance kinds + countKind ChildPageAdvance kinds
  + countKind PopOperation kinds.
Proof.
  induction kinds as [|kind kinds IH]; [done|].
  rewrite !countKind_cons. destruct kind; simpl; lia.
Qed.

Lemma length_treeKinds (t : Tree) :
  length (treeKinds t) = countFiles t + 3 * countFolders t - 1.
Proof.
  rewrite length_countKind.
  destruct (countKind_treeKinds t) as (-> & H & ->). lia.
Qed.




(** C9. For a folder that shows a finite tree, the calls of
    [listFilesAndFolders] from the stack with the entry of the folder alone
    reach the empty stack after exactly as many calls as there are advances of
    a file iterator, pushes of a folder and pops: one call per file and one
    per folder for the files, one per folder but the first for the pushes, one
    per folder for the pops.  The stack is not empty before.  The loop of
    [main], when the time limit is never reached, makes these calls and ends
    with the property deleted. *)
Theorem traversal_reaches_empty_stack (service : Service) (me : string)
    (t : Tree) (folder : Folder) (sheet : Sheet) :
  shows service folder t = true ->
  let n := countFiles t + 3 * countFolders t - 1 in
  let start := [makeIterationFromFolder folder] in
  (run service me n start sheet).2.2 = Ok []
  /\ (forall k, k < n ->
        exists x rest, (run service me k start sheet).2.2 = Ok (x :: rest))
  /\ (let kinds := (run service me n start sheet).1 in
      n = countKind LeafPageAdvance kinds + countKind ChildPageAdvance kinds
          + countKind PopOperation kinds
      /\ countKind LeafPageAdvance kinds = countFiles t + countFolders t
      /\ S (countKind ChildPageAdvance kinds) = countFolders t
      /\ countKind PopOperation kinds = countFolders t)
  /\ (forall (env : Env) (w : World) (fuel : nat) (startTime : Z),
        drive env = service ->
        getEmail (effectiveUser env) = me ->
        activeSheet (spreadsheet w) = sheet ->
        (forall k, (clock env k - startTime < MAX_EXECUTION_TIME_IN_MS env)%Z) ->
        n <= fuel ->
        (mainLoop env fuel startTime start w).2 = Ok tt
        /\ dateReads (mainLoop env fuel startTime start w).1 = dateReads w + n
        /\ userProperties (mainLoop env fuel startTime start w).1
             !! RECURSIVE_ITERATOR_KEY = None).
Proof.
  intros Hshows n start.
  pose proof (run_tree service me t folder [] sheet Hshows) as Hrun.
  rewrite length_treeKinds in Hrun. fold n in Hrun. change ([] ++ ?l) with l in Hrun.
  fold start in Hrun.
  split; [by rewrite Hrun|]. split.
  { intros k Hk.
    destruct (run_nonempty _ _ _ _ _ _ _ _ Hrun k Hk) as (kinds & sheet' & x & rest & Hk').
    exists x, rest. by rewrite Hk'. }
  split.
  { rewrite Hrun. cbn [fst]. rewrite <- length_countKind, length_treeKinds.
    split; [done|]. apply countKind_treeKinds. }
  intros env w fuel startTime <- <- <- Hclock Hfuel.
  rewrite (mainLoop_finishes env n _ _ _ _ _ _ Hrun); [|intros; apply Hclock|done].
  cbn [fst snd userProperties dateReads]. split; [done|]. split; [done|].
  apply lookup_delete_eq.
Qed.

Lemma traversal_reaches_empty_stack_witness :
  let drive := SmallDrive.service "My Drive" "sub" in
  let start := [makeIterationFromFolder (SmallDrive.root "My Drive")] in
  (run drive "me@example.com" 7 start []).2.2 = Ok []
  /\ countKind LeafPageAdvance (run drive "me@example.com" 7 start []).1 = 4
  /\ countKind ChildPageAdvance (run drive "me@example.com" 7 start []).1 = 1
  /\ countKind PopOperation (run drive "me@example.com" 7 start []).1 = 2.
Proof.
  pose proof (traversal_reaches_empty_stack
                (SmallDrive.service "My Drive" "sub") "me@example.com"
                (SmallDrive.tree "My Drive" "sub") (SmallDrive.root "My Drive") []
                eq_refl) as (Hend & _ & (_ & Hleaf & Hchild & Hpop) & _).
  cbv zeta. split; [exact Hend|]. split; [exact Hleaf|].
  split; [exact (eq_add_S _ 1 Hchild) | exact Hpop].
Defined.

(** ** The end of an iteration *)

(** What the code does in the next execution when the persisted iterator is
    the empty stack, with no forced new iteration and no start folder: no
    call is made, the property is deleted and "yes" is written. *)
Lemma resume_empty_stack (env : Env) (w : World) (fuel : nat) (startTime : Z) :
  FORCE_NEW_ITERATION env = false ->
  START_FOLDER_PATH env = "" ->
  userProperties w !! RECURSIVE_ITERATOR_KEY = Some "[]" ->
  let next := bind (prepareIteration env) (mainLoop env fuel startTime) w in
  next.2 = Ok tt
  /\ userProperties next.1 !! RECURSIVE_ITERATOR_KEY = None
  /\ getValue REPORT_SPREADSHEET_CELL_ITERATION_FINISHED (activeSheet (spreadsheet next.1))
     = Text "yes"
  /\ drop 3 (activeSheet (spreadsheet next.1)) = drop 3 (activeSheet (spreadsheet w)).
Proof.
  intros Hforce Hpath Hstored next. subst next.
  eassert (Heq : bind (prepareIteration env) (mainLoop env fuel startTime) w = _).
  { unfold bind at 1. rewrite prepareIteration_eq, Hstored, Hforce, Hpath.
    change (JSON.parse (default "null" (Some "[]"))) with (Ok (JSON.Array [])).
    cbn [negb String.eqb].
    change (iteratorOfJSON []) with (Some (@nil Iteration)). cbv iota.
    unfold bind at 1. rewrite updateSheet_eq. cbv zeta. unfold ret.
    rewrite mainLoop_nil. reflexivity. }
  rewrite Heq.
  cbn -[setValue getValue drop plusOne delete lookup].
  split; [done|]. split; [apply lookup_delete_eq|]. split; [apply getValue_setValue|].
  by rewrite !drop_setValue by (cbn; lia).
Qed.





(** ** The path of a reported item *)

Lemma shows_example (rootName subName : string) :
  shows (SmallDrive.service rootName subName) (SmallDrive.root rootName)
    (SmallDrive.tree rootName subName) = true.
Proof.
  cbn -[bool_decide]. rewrite !bool_decide_eq_true_2 by done. reflexivity.
Qed.

Lemma example_file_row (path name : string) :
  report path "File" (getSharingAccess "me@example.com" (SmallDrive.sharedItem name))
    (SmallDrive.sharedItem name) [] = [[Text (path +:+ name); Text "File"; Text "Shared"]].
Proof. reflexivity. Qed.

Lemma example_folder_row (path name : string) :
  report path "Folder" (getSharingAccess "me@example.com" (SmallDrive.privateItem name))
    (SmallDrive.privateItem name) [] = [].
Proof. reflexivity. Qed.

(** C2 as amended.  The row of a reported item has a path that begins with
    the folder names of all entries of the stack, the first one included,
    joined by "/", and ends with the name of the item.  In the small Drive,
    whatever the names of the two folders, the rows are the row of [a.txt] and
    then the row of [b.txt], both of type "File" and "Shared", the first path
    beginning with the name of the root folder and the second with the two
    folder names joined by "/"; the private folder has no row. *)
Theorem reported_path_begins_with_folders (drive : Service) (me : string)
    (recursiveIterator : list Iteration) (sheet : Sheet) (kind : string) (node : Item) :
  yielded drive recursiveIterator = Some (kind, node) ->
  getSharingAccess me node = "Shared" ->
  (exists between,
     (listFilesAndFolders drive me recursiveIterator sheet).1 =
     sheet ++ [[Text (folderPath recursiveIterator +:+ between +:+ getName node);
                Text kind; Text "Shared"]])
  /\ (forall rootName subName, exists between1 between2,
        (run (SmallDrive.service rootName subName) "me@example.com" 7
           [makeIterationFromFolder (SmallDrive.root rootName)] []).2 =
        ([[Text (rootName +:+ between1 +:+ "a.txt"); Text "File"; Text "Shared"];
          [Text (rootName +:+ "/" +:+ subName +:+ between2 +:+ "b.txt");
           Text "File"; Text "Shared"]],
         Ok [])).
Proof.
  intros Hyielded Hshared. split.
  - exists "".
    rewrite listFilesAndFolders_sheet, Hyielded, bool_decide_eq_true_2 by done.
    reflexivity.
  - intros rootName subName. exists "", "".
    pose proof (run_tree (SmallDrive.service rootName subName) "me@example.com"
                  (SmallDrive.tree rootName subName) (SmallDrive.root rootName) [] []
                  (shows_example rootName subName)) as Hrun.
    change (length (treeKinds (SmallDrive.tree rootName subName))) with 7 in Hrun.
    change ([] ++ ?l) with l in Hrun. rewrite Hrun. cbn [snd].
    cbn -[String.append report getSharingAccess]. do 2 rewrite example_file_row. rewrite example_folder_row.
    rewrite !append_assoc. reflexivity.
Qed.

Lemma reported_path_begins_with_folders_witness :
  exists between,
    (listFilesAndFolders (SmallDrive.service "My Drive" "sub") "me@example.com"
       [makeIterationFromFolder (SmallDrive.root "My Drive")] []).1 =
    [[Text ("My Drive" +:+ between +:+ "a.txt"); Text "File"; Text "Shared"]].
Proof.
  destruct (reported_path_begins_with_folders
              (SmallDrive.service "My Drive" "sub") "me@example.com"
              [makeIterationFromFolder (SmallDrive.root "My Drive")] []
              "File" (SmallDrive.sharedItem "a.txt") eq_refl eq_refl) as [[between H] _].
  exists between. exact H.
Defined.

(** The claim C2 fails on the small Drive: the paths have the name of the
    root folder in them and no "/" before the name of the file, whatever the
    name of the root folder. *)
Lemma reported_path_differs :
  (run (SmallDrive.service "My Drive" "sub") "me@example.com" 7
     [makeIterationFromFolder (SmallDrive.root "My Drive")] []).2 =
  ([[Text "My Drivea.txt"; Text "File"; Text "Shared"];
    [Text "My Drive/subb.txt"; Text "File"; Text "Shared"]], Ok [])
  /\ forall rootName,
       (run (SmallDrive.service rootName "sub") "me@example.com" 7
          [makeIterationFromFolder (SmallDrive.root rootName)] []).2.1 <>
       [[Text "a.txt"; Text "File"; Text "Shared"];
        [Text "sub/b.txt"; Text "File"; Text "Shared"]].
Proof.
  split; [reflexivity|]. intros rootName.
  pose proof (run_tree (SmallDrive.service rootName "sub") "me@example.com"
                (SmallDrive.tree rootName "sub") (SmallDrive.root rootName) [] []
                (shows_example rootName "sub")) as Hrun.
  change (length (treeKinds (SmallDrive.tree rootName "sub"))) with 7 in Hrun.
  change ([] ++ ?l) with l in Hrun. rewrite Hrun.
  cbn -[String.append report getSharingAccess]. do 2 rewrite example_file_row. rewrite example_folder_row.
  intros Heq. injection Heq as Ha Hb.
  destruct rootName as [|c rootName]; [discriminate Hb|].
  apply (f_equal String.length) in Ha. rewrite length_append in Ha.
  cbn in Ha. lia.
Qed.

(** ** A folder name with a double quote *)

(** C1 at a failing input.  In the small Drive with a double quote in the
    name of the subfolder and a clock that lets one call through per
    execution, the third execution persists the stack with the root folder
    and the subfolder.  The text parses back to this stack, and one more call
    from it would append the row of [b.txt].  But [main] throws in
    [prettyPrintUserProperties] at line 118 of every later execution, before
    [prepareIteration], whatever the fuel: the property and the report stay
    as they are. *)
Theorem resume_stopped_by_quoted_folder_name :
  let env := SmallDrive.env "My Drive" SmallDrive.quotedName 120000 in
  let stack := [entry "My Drive" None (Some "root-folders-1");
                entry SmallDrive.quotedName (Some "sub-files-0") (Some "sub-folders-0")] in
  let suspended := (SmallDrive.executions env 100 3 SmallDrive.emptyWorld).1 in
  userProperties suspended !! RECURSIVE_ITERATOR_KEY
    = Some (JSON.stringify (iteratorToJSON stack))
  /\ JSON.parse (JSON.stringify (iteratorToJSON stack)) = Ok (iteratorToJSON stack)
  /\ (run (drive env) "me@example.com" 1 stack (activeSheet (spreadsheet suspended))).2.1
     = activeSheet (spreadsheet suspended)
       ++ [[Text ("My Drive/" +:+ SmallDrive.quotedName +:+ "b.txt");
            Text "File"; Text "Shared"]]
  /\ forall fuel,
       main env fuel (SmallDrive.nextExecution suspended) =
       ({| userProperties := userProperties suspended;
           reportFile := reportFile suspended;
           dateReads := 1 |}, Throw SyntaxError).
Proof.
  cbv zeta. split; [vm_compute; reflexivity|].
  split; [apply parse_stringify_iterator|].
  split; [vm_compute; reflexivity|].
  intros fuel. vm_compute. reflexivity.
Qed.

(** * Further properties of the script *)

(** X1. [JSON.parse(JSON.stringify(recursiveIterator))], the text written at
    line 135 and read back at line 184, gives every stack back: the same
    entries in the same order, each with its folder name and its two tokens,
    [null] included, whatever characters the names and the tokens hold. *)
Theorem persisted_iterator_round_trip (recursiveIterator : list Iteration) :
  JSON.parse (JSON.stringify (iteratorToJSON recursiveIterator))
  = Ok (JSON.Array (map iterationToJSON recursiveIterator))
  /\ iteratorOfJSON (map iterationToJSON recursiveIterator) = Some recursiveIterator.
Proof.
  split; [apply parse_stringify_iterator|apply iteratorOfJSON_iteratorToJSON].
Qed.

(** ** Stacks that the script builds *)

Lemma snoc_of_nonempty (recursiveIterator : list Iteration) :
  recursiveIterator <> [] ->
  exists below top, recursiveIterator = below ++ [top].
Proof.
  destruct recursiveIterator as [|x rest] using rev_ind; [done|].
  intros _. by exists rest, x.
Qed.

Lemma wellFormed_snoc (below : list Iteration) (top : Iteration) :
  wellFormed (below ++ [top]) = wellFormed below && hasFolderToken top.
Proof. unfold wellFormed. rewrite forallb_app. simpl. by rewrite andb_true_r. Qed.

Lemma wellFormed_step (drive : Service) (me : string)
    (recursiveIterator : list Iteration) (sheet : Sheet) :
  wellFormed recursiveIterator = true ->
  recursiveIterator <> [] ->
  exists sheet' recursiveIterator',
    listFilesAndFolders drive me recursiveIterator sheet = (sheet', Ok recursiveIterator')
    /\ wellFormed recursiveIterator' = true.
Proof.
  intros Hwf Hne. destruct (snoc_of_nonempty _ Hne) as (below & top & ->).
  rewrite wellFormed_snoc in Hwf. apply andb_true_iff in Hwf as [Hbelow Htop].
  unfold listFilesAndFolders. rewrite last_snoc.
  destruct top as [name files folders]. unfold hasFolderToken in Htop. simpl in *.
  destruct folders as [folderToken|]; [|done].
  destruct files as [fileToken|].
  - destruct (continueFileIterator drive fileToken) as [[file token]|];
      eexists _, _; (split; [reflexivity|]);
      rewrite setLast_snoc, wellFormed_snoc, Hbelow; done.
  - destruct (continueFolderIterator drive folderToken) as [[folder token]|];
      eexists _, _; (split; [reflexivity|]).
    + rewrite setLast_snoc, !wellFormed_snoc, Hbelow. done.
    + by rewrite pop_snoc.
Qed.

Lemma prettyPrintUserProperties_result (w : World) :
  prettyPrintUserProperties w = (w, Ok tt)
  \/ prettyPrintUserProperties w = (w, Throw SyntaxError).
Proof.
  unfold prettyPrintUserProperties.
  match goal with |- context [JSON.parse ?text] =>
    destruct (parse_total text) as [[v ->]| ->] end; auto.
Qed.

(** X2. The throw of lines 322-323 is out of reach of the stacks that the
    script builds.  Take a stack in which every entry has a folder token, as
    every entry of [makeIterationFromFolder] has.  A call of
    [listFilesAndFolders] on it, if it is not empty, returns, and the stack it
    returns is again of this kind.  The loop of [main] started on it ends
    normally, or with the [SyntaxError] of the logger after the stack was
    persisted, or is cut by the fuel of the model; it never ends with the
    iterator failure or with a [TypeError]. *)
Theorem script_built_stack_never_fails (env : Env) (fuel : nat) (startTime : Z)
    (recursiveIterator : list Iteration) (w : World) :
  wellFormed recursiveIterator = true ->
  (recursiveIterator <> [] ->
   exists sheet' recursiveIterator',
     listFilesAndFolders (drive env) (getEmail (effectiveUser env)) recursiveIterator
       (activeSheet (spreadsheet w)) = (sheet', Ok recursiveIterator')
     /\ wellFormed recursiveIterator' = true)
  /\ match (mainLoop env fuel startTime recursiveIterator w).2 with
     | Ok _ => True
     | Throw e => e = SyntaxError
     | OutOfFuel => True
     | OutsideModel => False
     end.
Proof.
  intros Hwf. split; [by apply wellFormed_step|].
  revert recursiveIterator w Hwf.
  induction fuel as [|fuel IH]; intros it w Hwf.
  - destruct it; [by rewrite mainLoop_nil|done].
  - destruct it as [|x rest]; [by rewrite mainLoop_nil|].
    destruct (wellFormed_step (drive env) (getEmail (effectiveUser env)) (x :: rest)
                (activeSheet (spreadsheet w)) Hwf) as (sheet' & it' & Hstep & Hwf'); [done|].
    rewrite (mainLoop_turn _ _ _ _ _ _ _ _ Hstep). cbv zeta.
    destruct (_ <=? _)%Z.
    + match goal with |- context [prettyPrintUserProperties ?w'] =>
        destruct (prettyPrintUserProperties_result w') as [-> | ->] end; done.
    + by apply IH.
Qed.

Lemma script_built_stack_never_fails_witness :
  let env := SmallDrive.env "My Drive" "sub" 1 in
  let start := [makeIterationFromFolder (SmallDrive.root "My Drive")] in
  (start <> [] ->
   exists sheet' recursiveIterator',
     listFilesAndFolders (drive env) (getEmail (effectiveUser env)) start
       (activeSheet (spreadsheet SmallDrive.emptyWorld)) = (sheet', Ok recursiveIterator')
     /\ wellFormed recursiveIterator' = true)
  /\ match (mainLoop env 100 0 start SmallDrive.emptyWorld).2 with
     | Ok _ => True
     | Throw e => e = SyntaxError
     | OutOfFuel => True
     | OutsideModel => False
     end.
Proof.
  intros env start.
  apply (script_built_stack_never_fails env 100 0 start SmallDrive.emptyWorld).
  reflexivity.
Defined.

(** ** What an execution changes *)

Lemma mainLoop_step_fails (env : Env) (fuel : nat) (startTime : Z)
    (x : Iteration) (rest : list Iteration) (w : World) sheet' (e : Exn) :
  listFilesAndFolders (drive env) (getEmail (effectiveUser env)) (x :: rest)
    (activeSheet (spreadsheet w)) = (sheet', Throw e) ->
  mainLoop env (S fuel) startTime (x :: rest) w =
  ({| userProperties := userProperties w;
      reportFile := Some {| activeSheet := sheet';
                            otherSheets := otherSheets (spreadsheet w) |};
      dateReads := dateReads w |}, Throw e).
Proof. intros Hstep. cbn [mainLoop]. unfold bind at 1, step. by rewrite Hstep. Qed.

Lemma listFilesAndFolders_results (drive : Service) (me : string)
    (recursiveIterator : list Iteration) (sheet : Sheet) :
  match (listFilesAndFolders drive me recursiveIterator sheet).2 with
  | Ok _ => True
  | Throw e => e <> SyntaxError
  | OutOfFuel => False
  | OutsideModel => False
  end.
Proof.
  unfold listFilesAndFolders.
  destruct (last recursiveIterator) as [currentIteration|]; [|done].
  destruct (fileIteratorContinuationToken currentIteration) as [fileToken|].
  { by destruct (continueFileIterator drive fileToken) as [[file token]|]. }
  destruct (folderIteratorContinuationToken currentIteration) as [folderToken|]; [|done].
  by destruct (continueFolderIterator drive folderToken) as [[folder token]|].
Qed.

(** The properties, the sheets and the status cell after the loop of
    [main], by its result. *)
Lemma mainLoop_outcome (env : Env) (fuel : nat) :
  forall (startTime : Z) (recursiveIterator : list Iteration) (w : World),
  let result := mainLoop env fuel startTime recursiveIterator w in
  otherSheets (spreadsheet result.1) = otherSheets (spreadsheet w)
  /\ match result.2 with
     | Ok _ =>
       (userProperties result.1 = delete RECURSIVE_ITERATOR_KEY (userProperties w)
        /\ getValue REPORT_SPREADSHEET_CELL_ITERATION_FINISHED
             (activeSheet (spreadsheet result.1)) = Text "yes")
       \/ (exists recursiveIterator',
             userProperties result.1 =
               <[RECURSIVE_ITERATOR_KEY := JSON.stringify (iteratorToJSON recursiveIterator')]>
                 (userProperties w))
          /\ getValue REPORT_SPREADSHEET_CELL_ITERATION_FINISHED
               (activeSheet (spreadsheet result.1)) = Text "no"
     | Throw SyntaxError =>
       (exists recursiveIterator',
          userProperties result.1 =
            <[RECURSIVE_ITERATOR_KEY := JSON.stringify (iteratorToJSON recursiveIterator')]>
              (userProperties w))
       /\ getValue REPORT_SPREADSHEET_CELL_ITERATION_FINISHED
            (activeSheet (spreadsheet result.1)) = Text "no"
     | Throw _ => userProperties result.1 = userProperties w
     | OutOfFuel => userProperties result.1 = userProperties w
     | OutsideModel => False
     end.
Proof.
  induction fuel as [|fuel IH]; intros startTime it w result; subst result.
  - destruct it; [|done]. rewrite mainLoop_nil. cbn.
    split; [done|]. left. split; [done|]. apply getValue_setValue.
  - destruct it as [|x rest].
    { rewrite mainLoop_nil. cbn. split; [done|]. left. split; [done|].
      apply getValue_setValue. }
    pose proof (listFilesAndFolders_results (drive env) (getEmail (effectiveUser env))
                  (x :: rest) (activeSheet (spreadsheet w))) as Hres.
    destruct (listFilesAndFolders (drive env) (getEmail (effectiveUser env)) (x :: rest)
                (activeSheet (spreadsheet w))) as [sheet' [it'|e| |]] eqn:Hstep;
      cbn in Hres; try done.
    + rewrite (mainLoop_turn _ _ _ _ _ _ _ _ Hstep). cbv zeta.
      destruct (_ <=? _)%Z.
      * match goal with |- context [prettyPrintUserProperties ?w'] =>
          destruct (prettyPrintUserProperties_result w') as [-> | ->] end; cbn.
        -- split; [done|]. right. split; [by exists it'|]. apply getValue_setValue.
        -- split; [done|]. split; [by exists it'|]. apply getValue_setValue.
      * match goal with |- context [mainLoop env fuel startTime it' ?w'] =>
          specialize (IH startTime it' w') end.
        cbv zeta in IH. exact IH.
    + rewrite (mainLoop_step_fails _ _ _ _ _ _ _ _ Hstep). cbn.
      split; [done|]. by destruct e.
Qed.

Lemma prepareIteration_frame (env : Env) (w : World) :
  userProperties (prepareIteration env w).1 = userProperties w
  /\ (otherSheets (spreadsheet (prepareIteration env w).1) = otherSheets (spreadsheet w)
      \/ otherSheets (spreadsheet (prepareIteration env w).1)
         = activeSheet (spreadsheet w) :: otherSheets (spreadsheet w)).
Proof.
  rewrite prepareIteration_eq.
  assert (Hnew : forall it : list Iteration,
            let r := bind (createNewSheet env) (fun _ => ret it) w in
            userProperties r.1 = userProperties w
            /\ (otherSheets (spreadsheet r.1) = otherSheets (spreadsheet w)
                \/ otherSheets (spreadsheet r.1)
                   = activeSheet (spreadsheet w) :: otherSheets (spreadsheet w))).
  { intros it. unfold bind. rewrite createNewSheet_eq. cbn. auto. }
  destruct (JSON.parse _) as [v|e| |]; cbn; auto.
  destruct (FORCE_NEW_ITERATION env); [apply Hnew|].
  destruct (negb _).
  { destruct (getFolderByPath env _); [apply Hnew|cbn; auto]. }
  destruct v; cbn; auto; try apply Hnew.
  destruct (iteratorOfJSON _); cbn; auto.
Qed.

Lemma main_eq (env : Env) (fuel : nat) (w : World) :
  main env fuel w =
  match (prettyPrintUserProperties (later (S (dateReads w)) w)).2 with
  | Ok _ =>
    bind (prepareIteration env) (mainLoop env fuel (clock env (dateReads w)))
      (setSpreadsheet (spreadsheet w) (later (S (dateReads w)) w))
  | Throw e => (later (S (dateReads w)) w, Throw e)
  | OutOfFuel => (later (S (dateReads w)) w, OutOfFuel)
  | OutsideModel => (later (S (dateReads w)) w, OutsideModel)
  end.
Proof.
  unfold main. unfold bind at 1. cbn [newDate]. unfold bind at 1.
  change {| userProperties := userProperties w; reportFile := reportFile w;
            dateReads := S (dateReads w) |} with (later (S (dateReads w)) w).
  pose proof (prettyPrintUserProperties_world (later (S (dateReads w)) w)) as Hw.
  destruct (prettyPrintUserProperties (later (S (dateReads w)) w)) as [w' r].
  cbn [fst snd] in *. subst w'. by destruct r.
Qed.

(** X3. The user properties after the loop of [main], by its result.  When
    the loop returns, either the property of the iterator was deleted and the
    status cell reads "yes", or the property holds a stringified stack and the
    cell reads "no".  When it ends with a [SyntaxError], which only the logger
    of line 138 throws, the stack was persisted before and the cell reads
    "no".  When a call of [listFilesAndFolders] throws, or the fuel of the
    model runs out, the user properties are those of the start: the property
    written by an earlier execution is still there. *)
Theorem mainLoop_checkpoint (env : Env) (fuel : nat) (startTime : Z)
    (recursiveIterator : list Iteration) (w : World) :
  let result := mainLoop env fuel startTime recursiveIterator w in
  match result.2 with
  | Ok _ =>
    (userProperties result.1 = delete RECURSIVE_ITERATOR_KEY (userProperties w)
     /\ getValue REPORT_SPREADSHEET_CELL_ITERATION_FINISHED
          (activeSheet (spreadsheet result.1)) = Text "yes")
    \/ (exists recursiveIterator',
          userProperties result.1 =
            <[RECURSIVE_ITERATOR_KEY := JSON.stringify (iteratorToJSON recursiveIterator')]>
              (userProperties w))
       /\ getValue REPORT_SPREADSHEET_CELL_ITERATION_FINISHED
            (activeSheet (spreadsheet result.1)) = Text "no"
  | Throw SyntaxError =>
    (exists recursiveIterator',
       userProperties result.1 =
         <[RECURSIVE_ITERATOR_KEY := JSON.stringify (iteratorToJSON recursiveIterator')]>
           (userProperties w))
    /\ getValue REPORT_SPREADSHEET_CELL_ITERATION_FINISHED
         (activeSheet (spreadsheet result.1)) = Text "no"
  | Throw _ => userProperties result.1 = userProperties w
  | OutOfFuel => userProperties result.1 = userProperties w
  | OutsideModel => False
  end.
Proof. exact (proj2 (mainLoop_outcome env fuel startTime recursiveIterator w)). Qed.

(** X4. An execution of [main], whatever its result, changes no user
    property other than the one of the iterator, and it leaves the sheets of
    earlier iterations alone: the sheets after the first one are the same as
    before, or a new first sheet was inserted and the sheet that was first
    comes right after it, followed by the others. *)
Theorem main_changes_one_property_and_first_sheet (env : Env) (fuel : nat) (w : World) :
  (forall key, key <> RECURSIVE_ITERATOR_KEY ->
     userProperties (main env fuel w).1 !! key = userProperties w !! key)
  /\ (otherSheets (spreadsheet (main env fuel w).1) = otherSheets (spreadsheet w)
      \/ otherSheets (spreadsheet (main env fuel w).1)
         = activeSheet (spreadsheet w) :: otherSheets (spreadsheet w)).
Proof.
  rewrite main_eq.
  set (w0 := later (S (dateReads w)) w).
  destruct (prettyPrintUserProperties w0).2; [|cbn; auto..].
  set (w1 := setSpreadsheet (spreadsheet w) w0).
  destruct (prepareIteration_frame env w1) as [Hprops Hsheets].
  assert (Hloop : forall it w2,
            userProperties w2 = userProperties w ->
            (otherSheets (spreadsheet w2) = otherSheets (spreadsheet w)
             \/ otherSheets (spreadsheet w2)
                = activeSheet (spreadsheet w) :: otherSheets (spreadsheet w)) ->
            (forall key, key <> RECURSIVE_ITERATOR_KEY ->
               userProperties (mainLoop env fuel (clock env (dateReads w)) it w2).1 !! key
               = userProperties w !! key)
            /\ (otherSheets (spreadsheet (mainLoop env fuel (clock env (dateReads w)) it w2).1)
                = otherSheets (spreadsheet w)
                \/ otherSheets (spreadsheet (mainLoop env fuel (clock env (dateReads w)) it w2).1)
                   = activeSheet (spreadsheet w) :: otherSheets (spreadsheet w))).
  { intros it w2 Hp Hs.
    destruct (mainLoop_outcome env fuel (clock env (dateReads w)) it w2) as [Ho Hr].
    cbv zeta in Ho, Hr. rewrite Ho. split; [|done].
    intros key Hkey. rewrite <- Hp.
    destruct (mainLoop env fuel _ it w2) as [w3 r]. cbn in *.
    destruct r as [[]|e| |].
    - destruct Hr as [[-> _]|[[it' ->] _]].
      + by rewrite lookup_delete_ne.
      + by rewrite lookup_insert_ne.
    - destruct e; try by rewrite Hr.
      destruct Hr as [[it' ->] _]. by rewrite lookup_insert_ne.
    - by rewrite Hr.
    - done. }
  unfold bind.
  change (userProperties w1) with (userProperties w) in Hprops.
  change (spreadsheet w1) with (spreadsheet w) in Hsheets.
  destruct (prepareIteration env w1) as [w2 r]. cbn [fst] in Hprops, Hsheets.
  destruct r as [it|e| |]; [by apply Hloop|cbn [fst]; rewrite Hprops; auto..].
Qed.

(** ** Paths of start folders *)

Lemma split_nonempty (c : ascii) (s : string) : split c s <> [].
Proof.
  induction s as [|c' r IH]; cbn; [done|].
  destruct (c' =? c)%char; [done|]. by destruct (split c r).
Qed.

Lemma split_append (c : ascii) (a b : string) :
  split c (a +:+ String c b) = split c a ++ split c b.
Proof.
  induction a as [|c' r IH]; cbn.
  - by rewrite Ascii.eqb_refl.
  - rewrite IH. destruct (c' =? c)%char; [done|].
    pose proof (split_nonempty c r). by destruct (split c r).
Qed.

Lemma split_noSlash (s : string) : noSlash s = true -> split "/" s = [s].
Proof.
  induction s as [|c r IH]; cbn; [done|].
  intros [Hc Hr]%andb_true_iff. apply negb_true_iff in Hc. rewrite Hc.
  by rewrite (IH Hr).
Qed.

Lemma split_concat (names : list string) :
  names <> [] -> forallb noSlash names = true ->
  split "/" (String.concat "/" names) = names.
Proof.
  induction names as [|name names IH]; [done|]. intros _.
  cbn [forallb]. intros [Hname Hnames]%andb_true_iff.
  destruct names as [|name' names].
  - cbn. by apply split_noSlash.
  - rewrite concat_cons.
    change ("/" +:+ ?x) with (String "/" x).
    rewrite split_append, (split_noSlash _ Hname), IH; done.
Qed.

Lemma getFolderFrom_app (env : Env) (folders folders' : list string) :
  forall currentFolder,
  getFolderFrom env currentFolder (folders ++ folders') =
  match getFolderFrom env currentFolder folders with
  | Some folder => getFolderFrom env folder folders'
  | None => None
  end.
Proof.
  induction folders as [|name folders IH]; intros currentFolder; cbn; [done|].
  destruct (getFoldersByName (drive env) currentFolder name); [apply IH|done].
Qed.

(** X5. A stored iterator that is not JSON stops every execution, whatever
    [FORCE_NEW_ITERATION] and [START_FOLDER_PATH] are: [JSON.parse] at line
    184 runs before the two settings are looked at, and the logger of line
    118 parses the properties before that.  [main] ends with a [SyntaxError],
    leaves the user properties as they are and writes nothing into the
    report, so the next execution meets the same property. *)
Theorem corrupt_property_stops_every_execution (env : Env) (fuel : nat) (w : World)
    (text : string) :
  userProperties w !! RECURSIVE_ITERATOR_KEY = Some text ->
  JSON.parse text = Throw SyntaxError ->
  (main env fuel w).2 = Throw SyntaxError
  /\ userProperties (main env fuel w).1 = userProperties w
  /\ spreadsheet (main env fuel w).1 = spreadsheet w.
Proof.
  intros Hproperty Hparse. rewrite main_eq.
  destruct (prettyPrintUserProperties_result (later (S (dateReads w)) w)) as [-> | ->];
    cbn [snd]; [|done].
  unfold bind. rewrite prepareIteration_eq.
  change (userProperties (setSpreadsheet _ _)) with (userProperties w).
  rewrite Hproperty. change (default "null" (Some text)) with text. by rewrite Hparse.
Qed.

Lemma corrupt_property_stops_every_execution_witness :
  let env := {| drive := SmallDrive.service "My Drive" "sub";
                effectiveUser := SmallDrive.me;
                clock n := Z.of_nat n;
                toLocaleString t := "";
                START_FOLDER_PATH := "sub";
                FORCE_NEW_ITERATION := true;
                MAX_EXECUTION_TIME_IN_MS := 4 * 60 * 1000 |} in
  let w := {| userProperties := {[ RECURSIVE_ITERATOR_KEY := "[{" ]};
              reportFile := None; dateReads := 0 |} in
  (main env 100 w).2 = Throw SyntaxError
  /\ userProperties (main env 100 w).1 = userProperties w
  /\ spreadsheet (main env 100 w).1 = spreadsheet w.
Proof.
  intros env w.
  apply (corrupt_property_stops_every_execution env 100 w "[{"); reflexivity.
Defined.

(** X6. [getFolderByPath] on folder names joined by [/], at least one name
    and none with a [/] in it, looks the names up one after the other,
    the first one in the root folder and each next one in the folder found
    before. *)
Theorem getFolderByPath_segments (env : Env) (names : list string) :
  names <> [] ->
  forallb noSlash names = true ->
  getFolderByPath env (String.concat "/" names)
  = getFolderFrom env (getRootFolder (drive env)) names.
Proof.
  intros Hne Hnames. unfold getFolderByPath. by rewrite split_concat.
Qed.

Lemma getFolderByPath_segments_witness :
  getFolderByPath (SmallDrive.env "My Drive" "sub" 1) (String.concat "/" ["My Drive"; "sub"])
  = getFolderFrom (SmallDrive.env "My Drive" "sub" 1)
      (getRootFolder (drive (SmallDrive.env "My Drive" "sub" 1))) ["My Drive"; "sub"].
Proof.
  apply (getFolderByPath_segments (SmallDrive.env "My Drive" "sub" 1) ["My Drive"; "sub"]);
    [discriminate|reflexivity].
Defined.

(** X7. [getFolderByPath] takes every [/] as a separator and trims none.
    The path [p/r] is resolved as [r] from the folder of [p].  A [/] at the
    end asks for a subfolder with the empty name in the folder of the path
    before it, and a [/] at the start asks for a folder with the empty name in
    the root folder. *)
Theorem getFolderByPath_separators (env : Env) (path rest : string) :
  getFolderByPath env (path +:+ "/" +:+ rest)
  = match getFolderByPath env path with
    | Some folder => getFolderFrom env folder (split "/" rest)
    | None => None
    end
  /\ getFolderByPath env (path +:+ "/")
     = match getFolderByPath env path with
       | Some folder => getFoldersByName (drive env) folder ""
       | None => None
       end
  /\ getFolderByPath env ("/" +:+ path)
     = match getFoldersByName (drive env) (getRootFolder (drive env)) "" with
       | Some folder => getFolderFrom env folder (split "/" path)
       | None => None
       end.
Proof.
  unfold getFolderByPath. change ("/" +:+ ?x) with (String "/" x).
  split; [|split].
  - rewrite split_append. apply getFolderFrom_app.
  - rewrite split_append, getFolderFrom_app. cbn.
    destruct (getFolderFrom env _ _) as [folder|]; [|done].
    by destruct (getFoldersByName (drive env) folder "").
  - done.
Qed.

(** ** The log of the user properties *)

Lemma removeAll_append (c : ascii) (a b : string) :
  removeAll c (a +:+ b) = removeAll c a +:+ removeAll c b.
Proof.
  induction a as [|c' r IH]; cbn; [done|].
  destruct (c' =? c)%char; [done|]. cbn. by rewrite IH.
Qed.

Lemma escapeChar_quiet (c : ascii) :
  quietChar c = true ->
  JSON.escapeChar c =
  if (c =? JSON.dquote)%char then String JSON.backslash (String JSON.dquote "")
  else String c "".
Proof.
  unfold quietChar, JSON.escapeChar.
  intros [Hb Hn]%andb_true_iff.
  apply negb_true_iff in Hb. apply negb_true_iff, N.ltb_ge in Hn.
  rewrite Hb. destruct (c =? JSON.dquote)%char; [done|].
  repeat match goal with
         | |- context [(?a =? ?b)%N] => destruct (N.eqb_spec a b); [lia|]
         end.
  destruct (N.ltb_spec (N_of_ascii c) 32); [lia|done].
Qed.

Lemma removeAll_escape (s : string) :
  quiet s = true -> removeAll JSON.backslash (JSON.escape s) = s.
Proof.
  induction s as [|c r IH]; cbn [quiet JSON.escape]; [done|].
  intros [Hc Hr]%andb_true_iff.
  rewrite removeAll_append, (IH Hr), (escapeChar_quiet _ Hc).
  unfold quietChar in Hc. apply andb_true_iff in Hc as [Hb _].
  apply negb_true_iff in Hb.
  destruct (c =? JSON.dquote)%char eqn:Hq.
  - apply Ascii.eqb_eq in Hq as ->. reflexivity.
  - cbn. by rewrite Hb.
Qed.

Lemma escape_plain (s : string) : plain s = true -> JSON.escape s = s.
Proof.
  induction s as [|c r IH]; cbn [plain JSON.escape]; [done|].
  intros [Hc Hr]%andb_true_iff. rewrite (IH Hr).
  unfold plainChar in Hc. apply andb_true_iff in Hc as [[Hq Hb]%andb_true_iff Hn].
  rewrite escapeChar_quiet; [|unfold quietChar; by rewrite Hb, Hn].
  apply negb_true_iff in Hq. by rewrite Hq.
Qed.

Lemma quiet_plain (s : string) : plain s = true -> quiet s = true.
Proof.
  induction s as [|c r IH]; cbn [plain quiet]; [done|].
  intros [Hc Hr]%andb_true_iff. rewrite (IH Hr), andb_true_r.
  unfold plainChar in Hc. apply andb_true_iff in Hc as [[Hq Hb]%andb_true_iff Hn].
  unfold quietChar. by rewrite Hb, Hn.
Qed.

Lemma quiet_append (a b : string) : quiet (a +:+ b) = quiet a && quiet b.
Proof.
  induction a as [|c r IH]; cbn; [done|]. by rewrite IH, andb_assoc.
Qed.

Lemma quiet_quote (s : string) : plain s = true -> quiet (JSON.quote s) = true.
Proof.
  intros Hs. unfold JSON.quote. rewrite (escape_plain _ Hs).
  cbn [quiet]. rewrite quiet_append, (quiet_plain _ Hs). reflexivity.
Qed.

Lemma quiet_token (token : option string) :
  plainToken token = true -> quiet (JSON.stringify (tokenToJSON token)) = true.
Proof. destruct token as [s|]; [apply quiet_quote|done]. Qed.

Lemma quiet_entries (recursiveIterator : list Iteration) :
  plainIterator recursiveIterator = true ->
  quiet (String.concat "," (map JSON.stringify (map iterationToJSON recursiveIterator)))
  = true.
Proof.
  assert (Hentry : forall iteration,
            plain (folderName iteration)
            && plainToken (fileIteratorContinuationToken iteration)
            && plainToken (folderIteratorContinuationToken iteration) = true ->
            quiet (JSON.stringify (iterationToJSON iteration)) = true).
  { intros [name files folders]. cbn [folderName fileIteratorContinuationToken
                                      folderIteratorContinuationToken].
    intros [[Hname Hfiles]%andb_true_iff Hfolders]%andb_true_iff.
    unfold iterationToJSON.
    cbn [JSON.stringify map String.concat fst snd folderName
         fileIteratorContinuationToken folderIteratorContinuationToken].
    rewrite !quiet_append, (quiet_token _ Hfiles), (quiet_token _ Hfolders).
    change (JSON.stringify (JSON.Str name)) with (JSON.quote name).
    rewrite (quiet_quote _ Hname). reflexivity. }
  induction recursiveIterator as [|iteration [|next others] IH]; [done| |];
    cbn [plainIterator forallb]; intros [Hfirst Hothers]%andb_true_iff.
  - cbn [map String.concat]. by apply Hentry.
  - cbn [map] in *. rewrite concat_cons, !quiet_append, (Hentry _ Hfirst).
    cbn [andb]. change (quiet ",") with true. cbn [andb]. by apply IH.
Qed.

Lemma quiet_iterator (recursiveIterator : list Iteration) :
  plainIterator recursiveIterator = true ->
  quiet (JSON.stringify (iteratorToJSON recursiveIterator)) = true.
Proof.
  intros Hplain. unfold iteratorToJSON. cbn [JSON.stringify].
  rewrite !quiet_append, (quiet_entries _ Hplain). reflexivity.
Qed.

Lemma parseValue_iterator (recursiveIterator : list Iteration) (fuel : nat) (tail : string) :
  JSON.parseValue (S (6 + length recursiveIterator + fuel))
    (JSON.stringify (iteratorToJSON recursiveIterator) +:+ tail) =
  JSON.Parsed (iteratorToJSON recursiveIterator) tail.
Proof.
  unfold iteratorToJSON.
  destruct recursiveIterator as [|iteration others]; [reflexivity|].
  cbn [JSON.stringify].
  destruct (stringify_entries_head iteration others) as [text Htext].
  change ("[" +:+ ?x) with (String "[" x).
  change (String "[" ?x +:+ tail) with (String "[" (x +:+ tail)).
  rewrite append_assoc. change ("]" +:+ tail) with (String "]" tail).
  replace (6 + length (iteration :: others) + fuel) with (6 + length others + S fuel)
    by (cbn [length]; lia).
  assert (Harray : forall text tail,
    JSON.parseValue (S (6 + length others + S fuel)) (String "[" (String "{" text +:+ tail)) =
    match JSON.parseElements (6 + length others + S fuel) (String "{" text +:+ tail) with
    | JSON.Parsed elements rest => JSON.Parsed (JSON.Array elements) rest
    | JSON.Invalid => JSON.Invalid
    | JSON.Fuel => JSON.Fuel
    end) by reflexivity.
  rewrite Htext, Harray, <- Htext.
  by rewrite (parseElements_entries others iteration (S fuel) tail).
Qed.

Lemma prefix_empty (s : string) : String.prefix "" s = true.
Proof. by destruct s. Qed.

Lemma lastIndexOf_append (pattern a tail : string) (i : nat) :
  lastIndexOf pattern tail = Some i ->
  lastIndexOf pattern (a +:+ tail) = Some (String.length a + i).
Proof.
  intros Htail. induction a as [|c r IH]; cbn; [done|]. by rewrite IH.
Qed.

Lemma takeString_append (a tail : string) : takeString (String.length a) (a +:+ tail) = a.
Proof. induction a as [|c r IH]; cbn; [done|]. by rewrite IH. Qed.

Lemma dropString_append (a tail : string) : dropString (String.length a) (a +:+ tail) = tail.
Proof. induction a as [|c r IH]; cbn; [by destruct tail|done]. Qed.

Lemma replaceFirst_open (text : string) :
  replaceFirst (String JSON.dquote "[") "["
    (("{" +:+ JSON.quote RECURSIVE_ITERATOR_KEY +:+ ":")
     +:+ String JSON.dquote (String "[" text))
  = ("{" +:+ JSON.quote RECURSIVE_ITERATOR_KEY +:+ ":") +:+ String "[" text.
Proof. vm_compute. by destruct text. Qed.

Lemma stringify_properties (text : string) :
  JSON.stringify (JSON.Object [(RECURSIVE_ITERATOR_KEY, JSON.Str text)])
  = ("{" +:+ JSON.quote RECURSIVE_ITERATOR_KEY +:+ ":")
    +:+ String JSON.dquote (JSON.escape text +:+ String JSON.dquote "}").
Proof.
  cbn [JSON.stringify map String.concat fst snd].
  generalize (JSON.quote RECURSIVE_ITERATOR_KEY). intros key. unfold JSON.quote.
  rewrite !append_assoc. cbn [String.append]. rewrite !append_assoc. cbn [String.append].
  reflexivity.
Qed.

Lemma prettyPrintUserProperties_plain (w : World) (recursiveIterator : list Iteration) :
  userProperties w
    = {[ RECURSIVE_ITERATOR_KEY := JSON.stringify (iteratorToJSON recursiveIterator) ]} ->
  plainIterator recursiveIterator = true ->
  prettyPrintUserProperties w = (w, Ok tt).
Proof.
  intros Hproperties Hplain. unfold prettyPrintUserProperties.
  rewrite Hproperties, map_to_list_singleton. cbn [map fst snd].
  rewrite stringify_properties.
  pose proof (quiet_iterator _ Hplain) as Hquiet.
  pose proof (length_stringify_entries recursiveIterator) as Hlength.
  pose proof (parseValue_iterator recursiveIterator) as Hparse.
  set (head := "{" +:+ JSON.quote RECURSIVE_ITERATOR_KEY +:+ ":").
  set (closing := String "]" (String JSON.dquote "")).
  rewrite removeAll_append.
  change (removeAll JSON.backslash head) with head.
  change (removeAll JSON.backslash (String JSON.dquote ?x))
    with (String JSON.dquote (removeAll JSON.backslash x)).
  rewrite removeAll_append, (removeAll_escape _ Hquiet).
  change (removeAll JSON.backslash (String JSON.dquote "}")) with (String JSON.dquote "}").
  unfold iteratorToJSON in *. cbn [JSON.stringify] in *.
  set (body := String.concat "," _) in *.
  change ("[" +:+ ?x) with (String "[" x) in *.
  change (String "[" ?x +:+ ?y) with (String "[" (x +:+ y)) in *.
  rewrite append_assoc.
  change ("]" +:+ ?x) with (String "]" x).
  subst head. rewrite !replaceFirst_open.
  set (head := "{" +:+ JSON.quote RECURSIVE_ITERATOR_KEY +:+ ":").
  assert (Hsplit : head +:+ String "[" (body +:+ String "]" (String JSON.dquote "}"))
                   = (head +:+ String "[" body) +:+ String "]" (String JSON.dquote "}")).
  { by rewrite append_assoc. }
  rewrite Hsplit.
  rewrite (lastIndexOf_append closing (head +:+ String "[" body)
             (String "]" (String JSON.dquote "}")) 0 eq_refl), Nat.add_0_r.
  rewrite takeString_append, dropString_append.
  change (replaceFirst closing "]" _) with "]}".
  assert (Hshape : (head +:+ String "[" body) +:+ "]}"
                   = String "{" (String JSON.dquote
                       (JSON.escape RECURSIVE_ITERATOR_KEY
                        +:+ String JSON.dquote
                              (String ":" (String "[" ((body +:+ "]") +:+ "}")))))).
  { subst head. unfold JSON.quote. change ("{" +:+ ?x) with (String "{" x).
    repeat first [rewrite append_assoc | progress cbn [String.append]]. reflexivity. }
  unfold JSON.parse. rewrite Hshape.
  match goal with |- context [JSON.parseValue ?n _] =>
    assert (Hfuel : exists fuel, n = S (S (S (6 + length recursiveIterator + fuel))))
      by (exists (n - S (S (S (6 + length recursiveIterator))));
          cbn [String.length]; rewrite !length_append; cbn [String.length];
          rewrite !length_append; lia)
  end.
  destruct Hfuel as [fuel ->].
  rewrite parseValue_object, parseMembers_member, Hparse. reflexivity.
Qed.

Lemma prettyPrintUserProperties_empty (w : World) :
  userProperties w = ∅ -> prettyPrintUserProperties w = (w, Ok tt).
Proof.
  intros Hproperties. unfold prettyPrintUserProperties.
  by rewrite Hproperties, map_to_list_empty.
Qed.

(** ** Whole executions *)

Lemma main_starts_from_root (env : Env) (fuel : nat) (w : World) :
  FORCE_NEW_ITERATION env = false ->
  START_FOLDER_PATH env = "" ->
  userProperties w = ∅ ->
  main env fuel w =
  mainLoop env fuel (clock env (dateReads w))
    [makeIterationFromFolder (getRootFolder (drive env))]
    {| userProperties := ∅;
       reportFile :=
         Some {| activeSheet := newSheet env (clock env (S (dateReads w)));
                 otherSheets := activeSheet (spreadsheet w) :: otherSheets (spreadsheet w) |};
       dateReads := S (S (dateReads w)) |}.
Proof.
  intros Hforce Hpath Hproperties. rewrite main_eq.
  rewrite prettyPrintUserProperties_empty by done. cbn [snd].
  unfold bind. rewrite prepareIteration_eq.
  change (userProperties (setSpreadsheet _ _)) with (userProperties w).
  rewrite Hproperties, lookup_empty, Hforce, Hpath.
  change (JSON.parse (default "null" None)) with (Ok JSON.Null).
  cbn [negb String.eqb]. unfold startFromRoot, bind. rewrite createNewSheet_eq.
  cbn. by rewrite Hproperties.
Qed.

Lemma main_resumes (env : Env) (fuel : nat) (w : World)
    (recursiveIterator : list Iteration) :
  FORCE_NEW_ITERATION env = false ->
  START_FOLDER_PATH env = "" ->
  userProperties w
    = {[ RECURSIVE_ITERATOR_KEY := JSON.stringify (iteratorToJSON recursiveIterator) ]} ->
  plainIterator recursiveIterator = true ->
  main env fuel w =
  mainLoop env fuel (clock env (dateReads w)) recursiveIterator
    (updateSheet env (setSpreadsheet (spreadsheet w) (later (S (dateReads w)) w))).1.
Proof.
  intros Hforce Hpath Hproperties Hplain. rewrite main_eq.
  rewrite (prettyPrintUserProperties_plain _ recursiveIterator) by done. cbn [snd].
  apply resume_continues; [done..|].
  change (userProperties (setSpreadsheet _ _)) with (userProperties w).
  by rewrite Hproperties, lookup_singleton_eq.
Qed.

Lemma setValue_app (cell : nat * nat) (v : Cell) (heading rows : Sheet) :
  cell.1 < length heading ->
  setValue cell v (heading ++ rows) = setValue cell v heading ++ rows.
Proof.
  intros Hcell. unfold setValue.
  replace (S cell.1 - length (heading ++ rows)) with 0
    by (rewrite length_app; lia).
  replace (S cell.1 - length heading) with 0 by lia.
  cbn [replicate]. rewrite !app_nil_r.
  rewrite lookup_app_l by done. by rewrite insert_app_l.
Qed.

(** X8. [prettyPrintUserProperties] returns normally, and changes nothing,
    when the only user property is a persisted stack whose folder names and
    tokens have no double quote, no backslash and no control character:
    removing the backslashes and the two quotes around the array then gives
    JSON text again. *)
Theorem logger_accepts_plain_iterator (w : World) (recursiveIterator : list Iteration) :
  userProperties w
    = {[ RECURSIVE_ITERATOR_KEY := JSON.stringify (iteratorToJSON recursiveIterator) ]} ->
  plainIterator recursiveIterator = true ->
  prettyPrintUserProperties w = (w, Ok tt).
Proof. apply prettyPrintUserProperties_plain. Qed.

Lemma logger_accepts_plain_iterator_witness :
  let stack := [entry "My Drive" None (Some "root-folders-1");
                entry "sub" (Some "sub-files-0") (Some "sub-folders-0")] in
  let w := {| userProperties :=
                {[ RECURSIVE_ITERATOR_KEY := JSON.stringify (iteratorToJSON stack) ]};
              reportFile := None; dateReads := 0 |} in
  prettyPrintUserProperties w = (w, Ok tt).
Proof.
  intros stack w. apply (logger_accepts_plain_iterator w stack); reflexivity.
Defined.

(** X9. With no forced new iteration and no start folder, and with such a
    persisted stack as the only user property, [main] resumes: it reads the
    clock, opens the report, updates the status cells of the first sheet as
    [updateSheet] does, and runs its loop on exactly the persisted stack, with
    the time counted from the start of this execution. *)
Theorem main_resumes_plain_iterator (env : Env) (fuel : nat) (w : World)
    (recursiveIterator : list Iteration) :
  FORCE_NEW_ITERATION env = false ->
  START_FOLDER_PATH env = "" ->
  userProperties w
    = {[ RECURSIVE_ITERATOR_KEY := JSON.stringify (iteratorToJSON recursiveIterator) ]} ->
  plainIterator recursiveIterator = true ->
  main env fuel w =
  mainLoop env fuel (clock env (dateReads w)) recursiveIterator
    (updateSheet env (setSpreadsheet (spreadsheet w) (later (S (dateReads w)) w))).1.
Proof. apply main_resumes. Qed.

Lemma main_resumes_plain_iterator_witness :
  let env := SmallDrive.env "My Drive" "sub" 1 in
  let stack := [entry "My Drive" None (Some "root-folders-1");
                entry "sub" (Some "sub-files-0") (Some "sub-folders-0")] in
  let w := {| userProperties :=
                {[ RECURSIVE_ITERATOR_KEY := JSON.stringify (iteratorToJSON stack) ]};
              reportFile := None; dateReads := 0 |} in
  main env 100 w =
  mainLoop env 100 (clock env (dateReads w)) stack
    (updateSheet env (setSpreadsheet (spreadsheet w) (later (S (dateReads w)) w))).1.
Proof.
  intros env stack w. apply (main_resumes_plain_iterator env 100 w stack); reflexivity.
Defined.

(** X10. One execution that is not interrupted.  With no user property set,
    no forced new iteration and no start folder, on a Drive whose root folder
    shows the finite tree [t], and with the time limit not reached during the
    calls of the traversal, [main] returns with no user property set, and the
    report has a new first sheet: the four heading rows, with one run and the
    status "yes", followed by exactly the rows of the tree in the order of the
    traversal.  The sheet that was first comes after it. *)
Theorem single_execution_reports_the_tree (env : Env) (w : World) (t : Tree) (fuel : nat) :
  FORCE_NEW_ITERATION env = false ->
  START_FOLDER_PATH env = "" ->
  userProperties w = ∅ ->
  shows (drive env) (getRootFolder (drive env)) t = true ->
  (forall k, k < length (treeKinds t) ->
     (clock env (dateReads w + 2 + k) - clock env (dateReads w)
      < MAX_EXECUTION_TIME_IN_MS env)%Z) ->
  length (treeKinds t) <= fuel ->
  main env fuel w =
  ({| userProperties := ∅;
      reportFile :=
        Some {| activeSheet :=
                  [[Text "Start time of the last run";
                    Text (toLocaleString env (clock env (S (dateReads w))))];
                   [Text "Number of runs"; Number 1];
                   [Text "Iteration finished"; Text "yes"];
                   [Text "Name"; Text "Type"; Text "Shared"]]
                  ++ treeRows (getEmail (effectiveUser env)) [getName (rootItem t)] t;
                otherSheets := activeSheet (spreadsheet w) :: otherSheets (spreadsheet w) |};
      dateReads := dateReads w + 2 + length (treeKinds t) |}, Ok tt).
Proof.
  intros Hforce Hpath Hproperties Hshows Htime Hfuel.
  rewrite main_starts_from_root by done.
  pose proof (run_tree (drive env) (getEmail (effectiveUser env)) t
                (getRootFolder (drive env)) []
                (newSheet env (clock env (S (dateReads w)))) Hshows) as Hrun.
  cbn [app map] in Hrun.
  match goal with |- mainLoop _ _ _ ?it ?w2 = _ =>
    rewrite (mainLoop_finishes env (length (treeKinds t)) it w2 fuel _ _ _ Hrun)
  end; cycle 1.
  { intros k Hk. cbn [dateReads].
    replace (S (S (dateReads w)) + k) with (dateReads w + 2 + k) by lia. by apply Htime. }
  { done. }
  cbn [userProperties dateReads spreadsheet reportFile default otherSheets].
  rewrite delete_empty, setValue_app by (cbn; lia).
  do 2 f_equal. lia.
Qed.

Lemma single_execution_reports_the_tree_witness :
  let env := SmallDrive.env "My Drive" "sub" 1 in
  main env 100 SmallDrive.emptyWorld =
  ({| userProperties := ∅;
      reportFile :=
        Some {| activeSheet :=
                  [[Text "Start time of the last run"; Text ""];
                   [Text "Number of runs"; Number 1];
                   [Text "Iteration finished"; Text "yes"];
                   [Text "Name"; Text "Type"; Text "Shared"];
                   [Text "My Drivea.txt"; Text "File"; Text "Shared"];
                   [Text "My Drive/subb.txt"; Text "File"; Text "Shared"]];
                otherSheets := [[]] |};
      dateReads := 9 |}, Ok tt).
Proof.
  intros env.
  apply (single_execution_reports_the_tree env SmallDrive.emptyWorld
           (SmallDrive.tree "My Drive" "sub") 100);
    try reflexivity.
  - intros k Hk. cbn in *. lia.
  - cbn. lia.
Defined.

(** X11. One interruption.  As in X10, but the time limit is reached at the
    call number [S n] of the first execution, and the stack persisted there
    has plain folder names and tokens.  The first execution returns with that
    stack persisted and the status "no".  A second execution, whose clock is
    read from [reads] on and which is not interrupted, returns with no user
    property set, and the first sheet of the report is then the four heading
    rows, with two runs and the status "yes", followed by exactly the rows of
    the tree, in the same order as without the interruption: no row is
    missing and no row is written twice. *)
Theorem interrupted_traversal_reports_the_tree (env : Env) (w : World) (t : Tree)
    (n reads fuel : nat) (suspended : list Iteration) :
  FORCE_NEW_ITERATION env = false ->
  START_FOLDER_PATH env = "" ->
  userProperties w = ∅ ->
  shows (drive env) (getRootFolder (drive env)) t = true ->
  S n <= length (treeKinds t) ->
  (run (drive env) (getEmail (effectiveUser env)) (S n)
     [makeIterationFromFolder (getRootFolder (drive env))] []).2.2 = Ok suspended ->
  plainIterator suspended = true ->
  (forall k, k < n ->
     (clock env (dateReads w + 2 + k) - clock env (dateReads w)
      < MAX_EXECUTION_TIME_IN_MS env)%Z) ->
  (MAX_EXECUTION_TIME_IN_MS env
   <= clock env (dateReads w + 2 + n) - clock env (dateReads w))%Z ->
  (forall k, k < length (treeKinds t) - S n ->
     (clock env (reads + 2 + k) - clock env reads < MAX_EXECUTION_TIME_IN_MS env)%Z) ->
  length (treeKinds t) <= fuel ->
  let first := main env fuel w in
  let second := main env fuel (later reads first.1) in
  first.2 = Ok tt
  /\ userProperties first.1
     = {[ RECURSIVE_ITERATOR_KEY := JSON.stringify (iteratorToJSON suspended) ]}
  /\ getValue REPORT_SPREADSHEET_CELL_ITERATION_FINISHED (activeSheet (spreadsheet first.1))
     = Text "no"
  /\ second.2 = Ok tt
  /\ userProperties second.1 = ∅
  /\ activeSheet (spreadsheet second.1)
     = [[Text "Start time of the last run";
         Text (toLocaleString env (clock env (S reads)))];
        [Text "Number of runs"; Number 2];
        [Text "Iteration finished"; Text "yes"];
        [Text "Name"; Text "Type"; Text "Shared"]]
       ++ treeRows (getEmail (effectiveUser env)) [getName (rootItem t)] t
  /\ otherSheets (spreadsheet second.1)
     = activeSheet (spreadsheet w) :: otherSheets (spreadsheet w).
Proof.
  intros Hforce Hpath Hproperties Hshows Hn Hsuspended Hplain Htime1 Hlimit Htime2 Hfuel.
  set (me := getEmail (effectiveUser env)) in *.
  set (start := [makeIterationFromFolder (getRootFolder (drive env))]) in *.
  set (m := length (treeKinds t) - S n) in *.
  (* the calls of the whole traversal, cut after the first [S n] *)
  pose proof (run_tree (drive env) me t (getRootFolder (drive env)) [] [] Hshows) as Hrun.
  cbn [app map] in Hrun. fold start in Hrun.
  replace (length (treeKinds t)) with (S n + m) in Hrun by lia.
  rewrite run_add in Hrun.
  destruct (run (drive env) me (S n) start []) as [kinds1 [rows1 result1]] eqn:Hrun1.
  cbn [snd] in Hsuspended. subst result1.
  pose proof (run_rows (drive env) me m suspended rows1) as Hrows.
  destruct (run (drive env) me m suspended rows1) as [kinds2 [rows result2]] eqn:Hrun2.
  injection Hrun as _ Hrows2 Hresult2.
  injection Hrows as Hkinds Hrows1 Hresult.
  rewrite Hresult2 in Hresult. rewrite Hrows2 in Hrows1. clear Hrun2 Hrows2 Hresult2.
  (* the first execution *)
  set (sheet1 := setValue REPORT_SPREADSHEET_CELL_ITERATION_FINISHED (Text "no")
                   (newSheet env (clock env (S (dateReads w))) ++ rows1)).
  set (w1 := {| userProperties :=
                  {[ RECURSIVE_ITERATOR_KEY := JSON.stringify (iteratorToJSON suspended) ]};
                reportFile :=
                  Some {| activeSheet := sheet1;
                          otherSheets := activeSheet (spreadsheet w)
                                           :: otherSheets (spreadsheet w) |};
                dateReads := S (S (dateReads w)) + S n |}).
  assert (Hfirst : main env fuel w = (w1, Ok tt)).
  { rewrite main_starts_from_root by done. fold start.
    match goal with |- mainLoop _ _ _ _ ?w2 = _ =>
      rewrite (mainLoop_suspends env n start w2 fuel _ kinds1
                 (newSheet env (clock env (S (dateReads w))) ++ rows1) suspended)
    end.
    - cbn [userProperties dateReads spreadsheet reportFile default otherSheets].
      rewrite insert_empty. fold sheet1. fold w1.
      by apply (prettyPrintUserProperties_plain w1 suspended).
    - cbn [spreadsheet reportFile default activeSheet]. fold me.
      by rewrite run_rows, Hrun1.
    - intros k Hk. cbn [dateReads].
      replace (S (S (dateReads w)) + k) with (dateReads w + 2 + k) by lia. by apply Htime1.
    - cbn [dateReads].
      replace (S (S (dateReads w)) + n) with (dateReads w + 2 + n) by lia. done.
    - lia. }
  (* the second execution *)
  cbv zeta. rewrite Hfirst. cbn [fst snd].
  rewrite (main_resumes env fuel (later reads w1) suspended) by done.
  rewrite updateSheet_eq. cbv zeta. cbn [fst].
  match goal with |- context [mainLoop env fuel ?startTime suspended ?w2] =>
    rewrite (mainLoop_finishes env m suspended w2 fuel startTime kinds2
               (activeSheet (spreadsheet w2) ++ (run (drive env) me m suspended []).2.1))
  end; cycle 1.
  { fold me. by rewrite run_rows, <- Hkinds, <- Hresult. }
  { intros k Hk. cbn [dateReads later setSpreadsheet].
    replace (S (S reads) + k) with (reads + 2 + k) by lia. by apply Htime2. }
  { lia. }
  cbn [fst snd userProperties dateReads spreadsheet reportFile default otherSheets
       activeSheet later setSpreadsheet w1 id].
  split; [done|]. split; [done|]. split; [apply getValue_setValue|].
  split; [done|]. split; [apply delete_singleton_eq|]. split; [|done].
  subst sheet1. rewrite Hrows1, app_assoc.
  repeat (rewrite setValue_app by (cbn; lia)). reflexivity.
Qed.

Lemma interrupted_traversal_reports_the_tree_witness :
  let env := {| drive := SmallDrive.service "My Drive" "sub";
                effectiveUser := SmallDrive.me;
                clock n := if (n <? 5)%nat then (Z.of_nat n * 60000)%Z else 300000%Z;
                toLocaleString t := "";
                START_FOLDER_PATH := "";
                FORCE_NEW_ITERATION := false;
                MAX_EXECUTION_TIME_IN_MS := 4 * 60 * 1000 |} in
  let suspended := [entry "My Drive" None (Some "root-folders-1");
                    entry "sub" (Some "sub-files-0") (Some "sub-folders-0")] in
  let first := main env 100 SmallDrive.emptyWorld in
  let second := main env 100 (later 5 first.1) in
  first.2 = Ok tt
  /\ userProperties first.1
     = {[ RECURSIVE_ITERATOR_KEY := JSON.stringify (iteratorToJSON suspended) ]}
  /\ getValue REPORT_SPREADSHEET_CELL_ITERATION_FINISHED (activeSheet (spreadsheet first.1))
     = Text "no"
  /\ second.2 = Ok tt
  /\ userProperties second.1 = ∅
  /\ activeSheet (spreadsheet second.1)
     = [[Text "Start time of the last run"; Text ""];
        [Text "Number of runs"; Number 2];
        [Text "Iteration finished"; Text "yes"];
        [Text "Name"; Text "Type"; Text "Shared"];
        [Text "My Drivea.txt"; Text "File"; Text "Shared"];
        [Text "My Drive/subb.txt"; Text "File"; Text "Shared"]]
  /\ otherSheets (spreadsheet second.1) = [[]].
Proof.
  intros env suspended.
  apply (interrupted_traversal_reports_the_tree env SmallDrive.emptyWorld
           (SmallDrive.tree "My Drive" "sub") 2 5 100 suspended);
    try reflexivity.
  - cbn. lia.
  - intros k Hk. destruct k as [|[|k]]; [reflexivity..|lia].
  - cbn. lia.
Defined.

(** X12. A resumed execution that is interrupted again.  The only user
    property is a persisted stack with plain names and tokens, and the first
    sheet has four heading rows, the first three with two cells, above the
    rows written so far.  When the time limit is reached at call number
    [S n], [main] returns with the stack after these calls persisted in place
    of the old one, and the first sheet is: the heading with the new start
    time, one more run and the status "no", the rows that were there, and the
    rows of these [S n] calls after them.  The statement holds again for the
    next execution, so it covers any number of interruptions. *)
Theorem resumed_execution_suspended_again (env : Env) (w : World) (fuel n : nat)
    (recursiveIterator suspended : list Iteration) (a0 b0 a1 b1 a2 b2 : Cell) (r3 : Row)
    (rows rows' : list Row) (kinds : list StepKind) :
  FORCE_NEW_ITERATION env = false ->
  START_FOLDER_PATH env = "" ->
  userProperties w
    = {[ RECURSIVE_ITERATOR_KEY := JSON.stringify (iteratorToJSON recursiveIterator) ]} ->
  plainIterator recursiveIterator = true ->
  activeSheet (spreadsheet w) = [[a0; b0]; [a1; b1]; [a2; b2]; r3] ++ rows ->
  run (drive env) (getEmail (effectiveUser env)) (S n) recursiveIterator []
    = (kinds, (rows', Ok suspended)) ->
  plainIterator suspended = true ->
  (forall k, k < n ->
     (clock env (dateReads w + 2 + k) - clock env (dateReads w)
      < MAX_EXECUTION_TIME_IN_MS env)%Z) ->
  (MAX_EXECUTION_TIME_IN_MS env
   <= clock env (dateReads w + 2 + n) - clock env (dateReads w))%Z ->
  n < fuel ->
  main env fuel w =
  ({| userProperties :=
        {[ RECURSIVE_ITERATOR_KEY := JSON.stringify (iteratorToJSON suspended) ]};
      reportFile :=
        Some {| activeSheet :=
                  [[a0; Text (toLocaleString env (clock env (S (dateReads w))))];
                   [a1; plusOne b1];
                   [a2; Text "no"];
                   r3] ++ rows ++ rows';
                otherSheets := otherSheets (spreadsheet w) |};
      dateReads := dateReads w + 2 + S n |}, Ok tt).
Proof.
  intros Hforce Hpath Hproperties Hplain Hsheet Hrun Hplain' Htime Hlimit Hfuel.
  rewrite (main_resumes env fuel w recursiveIterator) by done.
  rewrite updateSheet_eq. cbv zeta. cbn [fst].
  match goal with |- mainLoop env fuel ?startTime _ ?w2 = _ =>
    rewrite (mainLoop_suspends env n recursiveIterator w2 fuel startTime kinds
               (activeSheet (spreadsheet w2) ++ rows') suspended)
  end; cycle 1.
  { by rewrite run_rows, Hrun. }
  { intros k Hk. cbn [dateReads later setSpreadsheet].
    replace (S (S (dateReads w)) + k) with (dateReads w + 2 + k) by lia. by apply Htime. }
  { cbn [dateReads later setSpreadsheet].
    replace (S (S (dateReads w)) + n) with (dateReads w + 2 + n) by lia. done. }
  { done. }
  cbn [fst snd userProperties dateReads spreadsheet reportFile default otherSheets
       activeSheet later setSpreadsheet id].
  change (activeSheet (default newSpreadsheet (reportFile w)))
    with (activeSheet (spreadsheet w)).
  change (otherSheets (default newSpreadsheet (reportFile w)))
    with (otherSheets (spreadsheet w)).
  rewrite Hproperties, insert_singleton_eq, Hsheet.
  repeat (rewrite setValue_app by (cbn; lia)).
  match goal with |- prettyPrintUserProperties ?w3 = _ =>
    rewrite (prettyPrintUserProperties_plain w3 suspended) by done
  end.
  rewrite <- app_assoc. do 3 f_equal. lia.
Qed.

Lemma resumed_execution_suspended_again_witness :
  let env := SmallDrive.env "My Drive" "sub" 60000 in
  let stack := [entry "My Drive" (Some "root-files-1") (Some "root-folders-0")] in
  let suspended := [entry "My Drive" None (Some "root-folders-1");
                    entry "sub" (Some "sub-files-1") (Some "sub-folders-0")] in
  let w := {| userProperties :=
                {[ RECURSIVE_ITERATOR_KEY := JSON.stringify (iteratorToJSON stack) ]};
              reportFile :=
                Some {| activeSheet :=
                          [[Text "Start time of the last run"; Text ""];
                           [Text "Number of runs"; Number 1];
                           [Text "Iteration finished"; Text "no"];
                           [Text "Name"; Text "Type"; Text "Shared"];
                           [Text "My Drivea.txt"; Text "File"; Text "Shared"]];
                        otherSheets := [] |};
              dateReads := 0 |} in
  main env 100 w =
  ({| userProperties :=
        {[ RECURSIVE_ITERATOR_KEY := JSON.stringify (iteratorToJSON suspended) ]};
      reportFile :=
        Some {| activeSheet :=
                  [[Text "Start time of the last run"; Text ""];
                   [Text "Number of runs"; Number 2];
                   [Text "Iteration finished"; Text "no"];
                   [Text "Name"; Text "Type"; Text "Shared"];
                   [Text "My Drivea.txt"; Text "File"; Text "Shared"];
                   [Text "My Drive/subb.txt"; Text "File"; Text "Shared"]];
                otherSheets := [] |};
      dateReads := 5 |}, Ok tt).
Proof.
  intros env stack suspended w.
  apply (resumed_execution_suspended_again env w 100 2 stack suspended
           (Text "Start time of the last run") (Text "")
           (Text "Number of runs") (Number 1)
           (Text "Iteration finished") (Text "no")
           [Text "Name"; Text "Type"; Text "Shared"]
           [[Text "My Drivea.txt"; Text "File"; Text "Shared"]]
           [[Text "My Drive/subb.txt"; Text "File"; Text "Shared"]]
           [LeafPageAdvance; ChildPageAdvance; LeafPageAdvance]);
    try reflexivity.
  - intros k Hk. cbn. lia.
  - lia.
Defined.

(** X13. A resumed execution that finishes.  From the same state as in X12,
    when the stack is empty after [m] calls and the time limit was not reached
    before, [main] returns with no user property left, and the first sheet is:
    the heading with the new start time, one more run and the status "yes",
    the rows that were there, and the rows of these [m] calls after them. *)
Theorem resumed_execution_finishes (env : Env) (w : World) (fuel m : nat)
    (recursiveIterator : list Iteration) (a0 b0 a1 b1 a2 b2 : Cell) (r3 : Row)
    (rows rows' : list Row) (kinds : list StepKind) :
  FORCE_NEW_ITERATION env = false ->
  START_FOLDER_PATH env = "" ->
  userProperties w
    = {[ RECURSIVE_ITERATOR_KEY := JSON.stringify (iteratorToJSON recursiveIterator) ]} ->
  plainIterator recursiveIterator = true ->
  activeSheet (spreadsheet w) = [[a0; b0]; [a1; b1]; [a2; b2]; r3] ++ rows ->
  run (drive env) (getEmail (effectiveUser env)) m recursiveIterator []
    = (kinds, (rows', Ok [])) ->
  (forall k, k < m ->
     (clock env (dateReads w + 2 + k) - clock env (dateReads w)
      < MAX_EXECUTION_TIME_IN_MS env)%Z) ->
  m <= fuel ->
  main env fuel w =
  ({| userProperties := ∅;
      reportFile :=
        Some {| activeSheet :=
                  [[a0; Text (toLocaleString env (clock env (S (dateReads w))))];
                   [a1; plusOne b1];
                   [a2; Text "yes"];
                   r3] ++ rows ++ rows';
                otherSheets := otherSheets (spreadsheet w) |};
      dateReads := dateReads w + 2 + m |}, Ok tt).
Proof.
  intros Hforce Hpath Hproperties Hplain Hsheet Hrun Htime Hfuel.
  rewrite (main_resumes env fuel w recursiveIterator) by done.
  rewrite updateSheet_eq. cbv zeta. cbn [fst].
  match goal with |- mainLoop env fuel ?startTime _ ?w2 = _ =>
    rewrite (mainLoop_finishes env m recursiveIterator w2 fuel startTime kinds
               (activeSheet (spreadsheet w2) ++ rows'))
  end; cycle 1.
  { by rewrite run_rows, Hrun. }
  { intros k Hk. cbn [dateReads later setSpreadsheet].
    replace (S (S (dateReads w)) + k) with (dateReads w + 2 + k) by lia. by apply Htime. }
  { done. }
  cbn [fst snd userProperties dateReads spreadsheet reportFile default otherSheets
       activeSheet later setSpreadsheet id].
  change (activeSheet (default newSpreadsheet (reportFile w)))
    with (activeSheet (spreadsheet w)).
  change (otherSheets (default newSpreadsheet (reportFile w)))
    with (otherSheets (spreadsheet w)).
  rewrite Hproperties, delete_singleton_eq, Hsheet.
  repeat (rewrite setValue_app by (cbn; lia)).
  rewrite <- app_assoc. do 3 f_equal. lia.
Qed.

Lemma resumed_execution_finishes_witness :
  let env := SmallDrive.env "My Drive" "sub" 1 in
  let stack := [entry "My Drive" (Some "root-files-1") (Some "root-folders-0")] in
  let w := {| userProperties :=
                {[ RECURSIVE_ITERATOR_KEY := JSON.stringify (iteratorToJSON stack) ]};
              reportFile :=
                Some {| activeSheet :=
                          [[Text "Start time of the last run"; Text ""];
                           [Text "Number of runs"; Number 1];
                           [Text "Iteration finished"; Text "no"];
                           [Text "Name"; Text "Type"; Text "Shared"];
                           [Text "My Drivea.txt"; Text "File"; Text "Shared"]];
                        otherSheets := [] |};
              dateReads := 0 |} in
  main env 100 w =
  ({| userProperties := ∅;
      reportFile :=
        Some {| activeSheet :=
                  [[Text "Start time of the last run"; Text ""];
                   [Text "Number of runs"; Number 2];
                   [Text "Iteration finished"; Text "yes"];
                   [Text "Name"; Text "Type"; Text "Shared"];
                   [Text "My Drivea.txt"; Text "File"; Text "Shared"];
                   [Text "My Drive/subb.txt"; Text "File"; Text "Shared"]];
                otherSheets := [] |};
      dateReads := 8 |}, Ok tt).
Proof.
  intros env stack w.
  apply (resumed_execution_finishes env w 100 6 stack
           (Text "Start time of the last run") (Text "")
           (Text "Number of runs") (Number 1)
           (Text "Iteration finished") (Text "no")
           [Text "Name"; Text "Type"; Text "Shared"]
           [[Text "My Drivea.txt"; Text "File"; Text "Shared"]]
           [[Text "My Drive/subb.txt"; Text "File"; Text "Shared"]]
           [LeafPageAdvance; ChildPageAdvance; LeafPageAdvance; LeafPageAdvance;
            PopOperation; PopOperation]);
    try reflexivity.
  - intros k Hk. cbn. lia.
  - lia.
Defined.

(** ** Plain stacks *)

Lemma plainIterator_snoc (below : list Iteration) (top : Iteration) :
  plainIterator (below ++ [top]) =
  plainIterator below
  && (plain (folderName top)
      && plainToken (fileIteratorContinuationToken top)
      && plainToken (folderIteratorContinuationToken top)).
Proof. unfold plainIterator. rewrite forallb_app. cbn. by rewrite andb_true_r. Qed.

Lemma plainIterator_step (drive : Service) (me : string)
    (recursiveIterator recursiveIterator' : list Iteration) (sheet sheet' : Sheet) :
  plainService drive ->
  plainIterator recursiveIterator = true ->
  listFilesAndFolders drive me recursiveIterator sheet = (sheet', Ok recursiveIterator') ->
  plainIterator recursiveIterator' = true.
Proof.
  intros [Hfiles Hfolders] Hplain.
  destruct recursiveIterator as [|x rest _] using rev_ind; [done|].
  rewrite plainIterator_snoc in Hplain.
  apply andb_true_iff in Hplain as [Hrest Hx].
  apply andb_true_iff in Hx as [[Hname HfileToken]%andb_true_iff HfolderToken].
  unfold listFilesAndFolders. rewrite last_snoc.
  destruct x as [name files folders]. cbn in *.
  destruct files as [fileToken|].
  - destruct (continueFileIterator drive fileToken) as [[file token]|] eqn:Hnext;
      intros [= _ <-]; rewrite setLast_snoc, plainIterator_snoc, Hrest; cbn;
      rewrite Hname, HfolderToken; [|done].
    by rewrite (Hfiles _ _ _ Hnext).
  - destruct folders as [folderToken|]; [|done].
    destruct (continueFolderIterator drive folderToken) as [[folder token]|] eqn:Hnext;
      intros [= _ <-].
    + destruct (Hfolders _ _ _ Hnext) as (Htoken & Hfolder & Hfirst & Hsecond).
      rewrite setLast_snoc, !plainIterator_snoc, Hrest. cbn.
      by rewrite Hname, Htoken, Hfolder, Hfirst, Hsecond.
    + by rewrite pop_snoc.
Qed.

(** X14. On a Drive that hands out plain tokens and whose iterators yield
    folders with plain names, a stack with plain names and tokens stays so
    through any number of calls of [listFilesAndFolders]: every stack that can
    be persisted is one that the logger accepts (X8) and that [main] resumes
    (X9, X12, X13).  The names of the files play no part: they are never put
    on the stack. *)
Theorem plain_stack_stays_plain (drive : Service) (me : string) (n : nat)
    (recursiveIterator : list Iteration) (sheet : Sheet) :
  plainService drive ->
  plainIterator recursiveIterator = true ->
  match (run drive me n recursiveIterator sheet).2.2 with
  | Ok recursiveIterator' => plainIterator recursiveIterator' = true
  | _ => True
  end.
Proof.
  intros Hservice. revert recursiveIterator sheet.
  induction n as [|n IH]; intros it sheet Hplain; [done|].
  rewrite run_S.
  destruct (listFilesAndFolders drive me it sheet) as [sheet' [it'|e| |]] eqn:Hstep;
    [|done..].
  specialize (IH it' sheet' (plainIterator_step _ _ _ _ _ _ Hservice Hplain Hstep)).
  by destruct (run drive me n it' sheet') as [kinds [sheet'' result]].
Qed.

Lemma plain_stack_stays_plain_witness :
  match (run (SmallDrive.service "My Drive" "sub") "me@example.com" 3
           [makeIterationFromFolder (SmallDrive.root "My Drive")] []).2.2 with
  | Ok recursiveIterator' => plainIterator recursiveIterator' = true
  | _ => True
  end.
Proof.
  apply (plain_stack_stays_plain (SmallDrive.service "My Drive" "sub") "me@example.com" 3
           [makeIterationFromFolder (SmallDrive.root "My Drive")] []); [|reflexivity].
  split.
  - intros token file token'. cbn.
    destruct (token =? "root-files-0")%string; [by intros [= _ <-]|].
    destruct (token =? "sub-files-0")%string; [by intros [= _ <-]|done].
  - intros token folder token'. cbn.
    destruct (token =? "root-folders-0")%string; [by intros [= <- <-]|done].
Defined.
